(** * Bloom filter and HyperLogLog (task-01.py, task-02.py)

    A shallow embedding of the two probabilistic structures of the
    repository and of the batch classifier built on the Bloom filter,
    followed by the properties of the specification that were checked
    against them.

    Conventions of the embedding.
    - A Python [int] is a [Z]; a Python [float] is a binary64 number
      ([PrimFloat.float]); a Python [str] is the [string] of its UTF-8
      bytes, so that [item.encode('utf-8')] is the identity and the empty
      [str] is [EmptyString].
    - A Python list is a [list]; indexing is checked and raises
      [IndexError] out of range, as in Python.
    - A function that can raise returns a [result]; exceptions propagate
      through the monadic bind [x ← r; k].
    - [mmh3.hash] and the two [math.h] functions behind [**] and
      [math.log] are not part of the repository: the classes take them as
      section variables.  Reference implementations ([Mmh3.hash],
      [Libm.pow], [Libm.log]) are given so that every definition can be
      run on concrete inputs. *)

From Stdlib Require Import ZArith String Ascii List Bool Lia.
From Stdlib Require Import DecimalString Floats.
From stdpp Require Import base list.

Set Warnings "-inexact-float".

Import ListNotations.
#[local] Open Scope string_scope.
#[local] Open Scope Z_scope.

(** ** Python values, exceptions and lists *)

Module Py.

(** The values that reach the code as items or as constructor
    arguments: [None], a [bool], an [int] or a [str]. *)
Inductive pyval : Type :=
| PyNone
| PyBool (b : bool)
| PyInt (z : Z)
| PyStr (s : string).

Inductive exn : Type :=
| ValueError
| TypeError
| IndexError
| ZeroDivisionError.

Inductive result (A : Type) : Type :=
| Ok (a : A)
| Raise (e : exn).
Arguments Ok {A} a.
Arguments Raise {A} e.

(** Exceptions propagate: [x ← r; k] runs [k] on the value of [r], or
    raises what [r] raises. *)
#[global] Instance result_ret : MRet result := fun A a => Ok a.
#[global] Instance result_bind : MBind result := fun A B k r =>
  match r with
  | Ok a => k a
  | Raise e => Raise e
  end.

(** [bool(v)]: the truth value Python gives to [v]. *)
Definition truthy (v : pyval) : bool :=
  match v with
  | PyNone => false
  | PyBool b => b
  | PyInt z => negb (z =? 0)
  | PyStr s => negb (String.eqb s "")
  end.

(** [isinstance(v, str)]. *)
Definition isinstance_str (v : pyval) : bool :=
  match v with
  | PyStr _ => true
  | _ => false
  end.

(** [isinstance(v, int)]; [bool] is a subclass of [int]. *)
Definition isinstance_int (v : pyval) : bool :=
  match v with
  | PyInt _ | PyBool _ => true
  | _ => false
  end.

(** The integer an [int] instance stands for ([True] is 1, [False] is 0);
    only meaningful under [isinstance_int]. *)
Definition int_value (v : pyval) : Z :=
  match v with
  | PyInt z => z
  | PyBool true => 1
  | _ => 0
  end.

(** The text of a [str] instance; only meaningful under
    [isinstance_str]. *)
Definition str_value (v : pyval) : string :=
  match v with
  | PyStr s => s
  | _ => ""
  end.

(** [v.encode('utf-8')] for a [str] instance [v]: a [str] is held as its
    UTF-8 bytes. *)
Definition encode_utf8 (v : pyval) : string := str_value v.

(** [str(v)]. *)
Definition str (v : pyval) : string :=
  match v with
  | PyNone => "None"
  | PyBool true => "True"
  | PyBool false => "False"
  | PyInt z => NilZero.string_of_int (Z.to_int z)
  | PyStr s => s
  end.

(** [range(n)] for an int [n]. *)
Definition range (n : Z) : list Z := map Z.of_nat (seq 0 (Z.to_nat n)).

(** Position designated by the index [i] in a list of length [len]:
    negative indices count from the end, anything else out of range has
    no position. *)
Definition position (len : nat) (i : Z) : option nat :=
  let k := if i <? 0 then i + Z.of_nat len else i in
  if (0 <=? k) && (k <? Z.of_nat len) then Some (Z.to_nat k) else None.

(** [l[i]]. *)
Definition getitem {A : Type} (l : list A) (i : Z) : result A :=
  match position (length l) i with
  | Some n =>
      match l !! n with
      | Some x => Ok x
      | None => Raise IndexError
      end
  | None => Raise IndexError
  end.

(** [l[i] = x]. *)
Definition setitem {A : Type} (l : list A) (i : Z) (x : A) : result (list A) :=
  match position (length l) i with
  | Some n => Ok (<[n := x]> l)
  | None => Raise IndexError
  end.

(** [a % b] on ints. *)
Definition mod_ (a b : Z) : result Z :=
  if b =? 0 then Raise ZeroDivisionError else Ok (a mod b).

(** [[x] * n]. *)
Definition list_mul {A : Type} (x : A) (n : Z) : list A := replicate (Z.to_nat n) x.

(** [l.count(x)] on a list of ints. *)
Definition count (l : list Z) (x : Z) : Z :=
  Z.of_nat (length (filter (fun y => y = x) l)).

(** [n.bit_length()]: number of bits of [|n|]. *)
Definition bit_length (n : Z) : Z :=
  if n =? 0 then 0 else Z.log2 (Z.abs n) + 1.

(** [a << b] on ints. *)
Definition lshift (a b : Z) : result Z :=
  if b <? 0 then Raise ValueError else Ok (Z.shiftl a b).

(** [a >> b] on ints. *)
Definition rshift (a b : Z) : result Z :=
  if b <? 0 then Raise ValueError else Ok (Z.shiftr a b).

(** [float(z)]: the binary64 number nearest to [z], ties to even.  It is
    [z] itself when [|z| < 2^53].  (Python raises [OverflowError] from
    [2^1024] on, where this function gives an infinity; no int of the
    code gets there.) *)
Definition float_of_int (z : Z) : float :=
  SF2Prim (binary_normalize prec emax z 0 false).

(** [a / b] on floats. *)
Definition truediv (a b : float) : result float :=
  if (b =? 0)%float then Raise ZeroDivisionError else Ok (a / b)%float.

(** [a / b] on ints: the quotient of the two conversions, which is the
    correctly rounded quotient that Python returns when both ints are
    below [2^53]. *)
Definition int_truediv (a b : Z) : result float :=
  if b =? 0 then Raise ZeroDivisionError
  else Ok (float_of_int a / float_of_int b)%float.

(** [sum(fs)] over floats: the additions are made from left to right,
    starting from 0.  (From version 3.12 on, CPython also carries a
    compensation of the rounding errors; the result is the same whenever
    the additions are exact, as they are on registers below 33 up to
    [p = 21].) *)
Definition sum (fs : list float) : float := fold_left PrimFloat.add fs 0%float.

(** An item that is absent ([None]), empty, or not a string. *)
Definition invalid_item (item : pyval) : Prop :=
  item = PyNone \/ item = PyStr "" \/ forall s, item <> PyStr s.

(** A positive integer, [True] being the int 1. *)
Definition positive_int (v : pyval) : Prop :=
  isinstance_int v = true /\ 0 < int_value v.

(** A [dict] with [str] keys and values.  Python keeps the keys in the
    order in which they were first inserted; assigning to a key that is
    present replaces its value in place. *)
Definition dict : Type := list (string * string).

Fixpoint dict_set (d : dict) (k v : string) : dict :=
  match d with
  | [] => [(k, v)]
  | (k', v') :: d' =>
      if String.eqb k' k then (k', v) :: d' else (k', v') :: dict_set d' k v
  end.

Fixpoint dict_get (d : dict) (k : string) : option string :=
  match d with
  | [] => None
  | (k', v') :: d' => if String.eqb k' k then Some v' else dict_get d' k
  end.

Definition dict_keys (d : dict) : list string := map fst d.

(** The assignments [d[k] = v] made in turn for the pairs of [kvs]. *)
Definition dict_update (d : dict) (kvs : list (string * string)) : dict :=
  fold_left (fun d kv => dict_set d (fst kv) (snd kv)) kvs d.

(** The value of the last pair of [kvs] whose key is [k]. *)
Fixpoint last_binding (k : string) (kvs : list (string * string)) : option string :=
  match kvs with
  | [] => None
  | kv :: kvs' =>
      match last_binding k kvs' with
      | Some v => Some v
      | None => if String.eqb (fst kv) k then Some (snd kv) else None
      end
  end.

(** The last item of [items] whose string form [str(item)] is [k]. *)
Fixpoint last_with_key (k : string) (items : list pyval) : option pyval :=
  match items with
  | [] => None
  | item :: items' =>
      match last_with_key k items' with
      | Some item' => Some item'
      | None => if String.eqb (str item) k then Some item else None
      end
  end.

End Py.

Import Py.

(** ** MurmurHash3 (x86, 32 bit): reference implementation of [mmh3.hash] *)

Module Mmh3.

Definition mask32 (x : Z) : Z := Z.land x 0xFFFFFFFF.

Definition rotl32 (x r : Z) : Z :=
  mask32 (Z.lor (Z.shiftl x r) (Z.shiftr x (32 - r))).

Definition mul32 (a b : Z) : Z := mask32 (a * b).

Definition c1 : Z := 0xcc9e2d51.
Definition c2 : Z := 0x1b873593.

Definition mix_k1 (k1 : Z) : Z := mul32 (rotl32 (mul32 k1 c1) 15) c2.

Definition mix_h1 (h1 k1 : Z) : Z :=
  mask32 (mul32 (rotl32 (Z.lxor h1 (mix_k1 k1)) 13) 5 + 0xe6546b64).

Definition fmix32 (h : Z) : Z :=
  let h := Z.lxor h (Z.shiftr h 16) in
  let h := mul32 h 0x85ebca6b in
  let h := Z.lxor h (Z.shiftr h 13) in
  let h := mul32 h 0xc2b2ae35 in
  Z.lxor h (Z.shiftr h 16).

(** Body over the 4-byte little-endian blocks, then the tail of 1 to 3
    bytes. *)
Fixpoint blocks (bytes : list Z) (h1 : Z) : Z :=
  match bytes with
  | b0 :: b1 :: b2 :: b3 :: rest =>
      let k1 := Z.lor (Z.lor b0 (Z.shiftl b1 8))
                      (Z.lor (Z.shiftl b2 16) (Z.shiftl b3 24)) in
      blocks rest (mix_h1 h1 k1)
  | [b0; b1; b2] =>
      Z.lxor h1 (mix_k1 (Z.lxor (Z.lxor (Z.shiftl b2 16) (Z.shiftl b1 8)) b0))
  | [b0; b1] => Z.lxor h1 (mix_k1 (Z.lxor (Z.shiftl b1 8) b0))
  | [b0] => Z.lxor h1 (mix_k1 b0)
  | [] => h1
  end.

Definition bytes_of (s : string) : list Z :=
  map (fun c => Z.of_N (N_of_ascii c)) (list_ascii_of_string s).

(** [mmh3.hash(data, seed, signed=False)]. *)
Definition hash (data : string) (seed : Z) : Z :=
  let bytes := bytes_of data in
  mask32 (fmix32 (Z.lxor (blocks bytes (mask32 seed)) (Z.of_nat (length bytes)))).

End Mmh3.

(** ** task-01.py: the Bloom filter *)

Module BloomFilter.

Record t : Type := Build {
  size : Z;
  num_hashes : Z;
  bit_array : list Z
}.

Definition with_bit_array (self : t) (bits : list Z) : t :=
  {| size := size self; num_hashes := num_hashes self; bit_array := bits |}.

(** [BloomFilter(size, num_hashes)]. *)
Definition __init__ (size num_hashes : pyval) : result t :=
  if negb (isinstance_int size && (int_value size >? 0) &&
           isinstance_int num_hashes && (int_value num_hashes >? 0))
  then Raise ValueError
  else Ok {| size := int_value size;
             num_hashes := int_value num_hashes;
             bit_array := list_mul 0 (int_value size) |}.

(** The calls a client makes on an instance. *)
Inductive op : Type :=
| Add (item : pyval)
| Contains (item : pyval).

Section Methods.

Variable mmh3_hash : string -> Z -> Z.

(** The body of [for i in range(self.num_hashes)] in [add], over the
    seeds that are left. *)
Fixpoint add_loop (self : t) (data : string) (seeds : list Z) : result t :=
  match seeds with
  | [] => Ok self
  | i :: seeds' =>
      let hash_value := mmh3_hash data i in
      index ← mod_ hash_value (size self);
      bits ← setitem (bit_array self) index 1;
      add_loop (with_bit_array self bits) data seeds'
  end.

(** [self.add(item)]: the filter after the call. *)
Definition add (self : t) (item : pyval) : result t :=
  if negb (truthy item) || negb (isinstance_str item) then Ok self
  else
    let data := encode_utf8 item in
    add_loop self data (range (num_hashes self)).

(** The loop of [contains]; it returns [False] at the first bit that
    is 0. *)
Fixpoint contains_loop (self : t) (data : string) (seeds : list Z) : result bool :=
  match seeds with
  | [] => Ok true
  | i :: seeds' =>
      let hash_value := mmh3_hash data i in
      index ← mod_ hash_value (size self);
      bit ← getitem (bit_array self) index;
      if bit =? 0 then Ok false else contains_loop self data seeds'
  end.

(** [self.contains(item)]. *)
Definition contains (self : t) (item : pyval) : result bool :=
  if negb (truthy item) || negb (isinstance_str item) then Ok false
  else
    let data := encode_utf8 item in
    contains_loop self data (range (num_hashes self)).

(** One call on the instance: the filter after it.  [contains] assigns
    nothing, so it leaves the filter as it is. *)
Definition step (self : t) (o : op) : result t :=
  match o with
  | Add item => add self item
  | Contains item =>
      match contains self item with
      | Ok _ => Ok self
      | Raise e => Raise e
      end
  end.

(** A sequence of calls on the instance. *)
Fixpoint run (self : t) (ops : list op) : result t :=
  match ops with
  | [] => Ok self
  | o :: ops' => self' ← step self o; run self' ops'
  end.

End Methods.

(** What the constructor establishes and every call keeps: a positive
    size, as many bits as the size, each bit 0 or 1. *)
Definition wf (self : t) : Prop :=
  0 < size self /\
  length (bit_array self) = Z.to_nat (size self) /\
  forall n b, bit_array self !! n = Some b -> b = 0 \/ b = 1.

(** The parameters are the same in [self'] as in [self], and the bits
    that are 1 in [self] are 1 in [self']. *)
Definition grows (self self' : t) : Prop :=
  size self' = size self /\ num_hashes self' = num_hashes self /\
  forall n, bit_array self !! n = Some 1 -> bit_array self' !! n = Some 1.

End BloomFilter.

(** The three statuses written by [check_password_uniqueness]. *)
Definition STATUS_INVALID : string := "некоректний або порожній".
Definition STATUS_USED : string := "вже використаний".
Definition STATUS_UNIQUE : string := "унікальний".

Section Classifier.

Variable mmh3_hash : string -> Z -> Z.

(** The loop of [check_password_uniqueness] over the passwords that are
    left, [results] being the dictionary built so far. *)
Fixpoint check_loop (bloom_filter : BloomFilter.t) (new_passwords : list pyval)
    (results : dict) : result dict :=
  match new_passwords with
  | [] => Ok results
  | password :: rest =>
      if negb (truthy password) || negb (isinstance_str password) then
        let key := str password in
        check_loop bloom_filter rest (dict_set results key STATUS_INVALID)
      else
        match BloomFilter.contains mmh3_hash bloom_filter password with
        | Raise e => Raise e
        | Ok true =>
            check_loop bloom_filter rest
              (dict_set results (str_value password) STATUS_USED)
        | Ok false =>
            check_loop bloom_filter rest
              (dict_set results (str_value password) STATUS_UNIQUE)
        end
  end.

Definition check_password_uniqueness (bloom_filter : BloomFilter.t)
    (new_passwords : list pyval) : result dict :=
  check_loop bloom_filter new_passwords [].

(** The three-way rule of the specification (4.2) for one item: [st] is
    the invalid status when the item is absent, empty or not a string,
    the possibly-present status when [contains] is true, the unique
    status when [contains] is false. *)
Definition has_status (bloom_filter : BloomFilter.t) (item : pyval)
    (st : string) : Prop :=
  (invalid_item item /\ st = STATUS_INVALID) \/
  (~ invalid_item item /\
   BloomFilter.contains mmh3_hash bloom_filter item = Ok true /\
   st = STATUS_USED) \/
  (~ invalid_item item /\
   BloomFilter.contains mmh3_hash bloom_filter item = Ok false /\
   st = STATUS_UNIQUE).

(** The pairs written for the items, one for each: the key is
    [str(item)] and the value follows the three-way rule. *)
Definition entries_of (bf : BloomFilter.t) (items : list pyval)
    (kvs : list (string * string)) : Prop :=
  Forall2 (fun item kv => fst kv = str item /\ has_status bf item (snd kv))
          items kvs.

(** The classification as the specification words it (4.2): the
    result has one entry for each item, in input order, and the entry
    of an item holds the status that the three-way rule gives it. *)
Definition one_status_per_item (bf : BloomFilter.t) (items : list pyval)
    (d : dict) : Prop :=
  length d = length items /\
  forall (i : nat) (item : pyval),
    items !! i = Some item ->
    exists st, d !! i = Some (str item, st) /\ has_status bf item st.

End Classifier.


(** ** Reference implementations of the two [math.h] functions *)

Module Libm.

(** The integer a float stands for, if it stands for one. *)
Definition integral (y : float) : option Z :=
  match Prim2SF y with
  | S754_zero _ => Some 0
  | S754_finite sign mant e =>
      let n := if sign then Z.neg mant else Z.pos mant in
      if 0 <=? e then Some (n * 2 ^ e)
      else if n mod 2 ^ (- e) =? 0 then Some (n / 2 ^ (- e))
      else None
  | _ => None
  end.

Fixpoint pow_pos (x : float) (n : positive) : float :=
  match n with
  | xH => x
  | xO n' => let y := pow_pos x n' in (y * y)%float
  | xI n' => let y := pow_pos x n' in (x * (y * y))%float
  end.

(** [pow(x, y)] for an integral [y] (the code raises 2.0 to the opposite
    of a register); [nan] otherwise.  A negative power of 2.0 is made by
    scaling 1.0, which is exact down to the subnormal numbers, as in the
    C library; for another base the quotient [1 / x^n] can be one
    rounding away from it. *)
Definition pow (x y : float) : float :=
  match integral y with
  | Some 0 => 1%float
  | Some (Z.pos n) => pow_pos x n
  | Some (Z.neg n) =>
      if (x =? 2)%float then Z.ldexp 1 (Z.neg n) else (1 / pow_pos x n)%float
  | None => nan
  end.

Definition ln2 : float := 0.6931471805599453%float.

(** [atanh_series t k acc] adds the terms [t^(2i+1) / (2i+1)] for
    [i < k], highest first. *)
Fixpoint atanh_series (t : float) (k : nat) (acc : float) : float :=
  match k with
  | O => acc
  | S k' =>
      let d := float_of_int (2 * Z.of_nat k' + 1) in
      atanh_series t k' (acc + pow_pos t (Pos.of_nat (2 * k' + 1)%nat) / d)%float
  end.

(** [log(x)] for [x > 0]: with [x = f * 2^e] and [1 <= f < 2],
    [log x = 2 * atanh ((f - 1) / (f + 1)) + e * log 2].  The result
    can be one unit in the last place away from that of the C library
    (it is at [16 / 12]); [log 1] is exactly 0. *)
Definition log (x : float) : float :=
  if (x <=? 0)%float then nan
  else
    let (f, e) := Z.frexp x in
    let f := (2 * f)%float in
    let e := e - 1 in
    let t := ((f - 1) / (f + 1))%float in
    (2 * atanh_series t 24 0 + float_of_int e * ln2)%float.

End Libm.

(** ** task-02.py: HyperLogLog *)

Module HyperLogLog.

Record t : Type := Build {
  p : Z;
  m : Z;
  registers : list Z;
  alpha : float;
  small_range_correction : float
}.

Definition with_registers (self : t) (regs : list Z) : t :=
  {| p := p self; m := m self; registers := regs;
     alpha := alpha self;
     small_range_correction := small_range_correction self |}.

(** [self._get_alpha()], which reads [self.m] only. *)
Definition _get_alpha (m : Z) : result float :=
  if m =? 16 then Ok 0.673%float
  else if m =? 32 then Ok 0.697%float
  else if m =? 64 then Ok 0.709%float
  else
    q ← truediv 1.079 (float_of_int m);
    truediv 0.7213 (1 + q).

(** [HyperLogLog(p)]. *)
Definition __init__ (p : pyval) : result t :=
  if isinstance_int p then
    m ← lshift 1 (int_value p);
    alpha ← _get_alpha m;
    small_range_correction ← int_truediv (5 * m) 2;
    Ok {| p := int_value p; m := m; registers := list_mul 0 m;
          alpha := alpha;
          small_range_correction := small_range_correction |}
  else Raise TypeError.

(** [self._rho(w)]. *)
Definition _rho (w : Z) : Z :=
  if w =? 0 then 32 else 32 - bit_length w + 1.

(** [math.log(x)] on top of the C function [log]. *)
Definition math_log (log : float -> float) (x : float) : result float :=
  if (x <=? 0)%float then Raise ValueError else Ok (log x).

(** The calls a client makes on an instance. *)
Inductive op : Type :=
| Add (item : pyval)
| Count.

(** The seed of every [add]. *)
Definition SEED : Z := 0xDEADBEEF.

Section Methods.

Variable mmh3_hash : string -> Z -> Z.
Variable pow : float -> float -> float.
Variable log : float -> float.

(** [self.add(item)]: the estimator after the call. *)
Definition add (self : t) (item : pyval) : result t :=
  let x := mmh3_hash (str item) SEED in
  let j := Z.land x (m self - 1) in
  w ← rshift x (p self);
  old ← getitem (registers self) j;
  regs ← setitem (registers self) j (Z.max old (_rho w));
  Ok (with_registers self regs).

(** [self.count()]. *)
Definition count (self : t) : result float :=
  let Z := sum (map (fun r => pow 2 (float_of_int (- r))) (registers self)) in
  E ← truediv (alpha self * float_of_int (m self) * float_of_int (m self)) Z;
  if (E <=? small_range_correction self)%float then
    let V := Py.count (registers self) 0 in
    if V >? 0 then
      ratio ← int_truediv (m self) V;
      l ← math_log log ratio;
      Ok (float_of_int (m self) * l)%float
    else Ok E
  else Ok E.

(** One call on the instance: the estimator after it.  [count] assigns
    nothing, so it leaves the estimator as it is. *)
Definition step (self : t) (o : op) : result t :=
  match o with
  | Add item => add self item
  | Count =>
      match count self with
      | Ok _ => Ok self
      | Raise e => Raise e
      end
  end.

(** A sequence of calls on the instance. *)
Fixpoint run (self : t) (ops : list op) : result t :=
  match ops with
  | [] => Ok self
  | o :: ops' => self' ← step self o; run self' ops'
  end.

(** [count] as the specification words it (4.3): [Z] is the sum of
    [2^(-register)] over the registers, [E = alpha * m^2 / Z]; if
    [E <= 2.5 * m] and the number [V] of zero registers is positive the
    result is [m * ln(m / V)], and it is [E] in every other case. *)
Definition count_spec (self : t) : result float :=
  let fm := float_of_int (m self) in
  let Z := sum (map (fun r => pow 2 (float_of_int (- r))) (registers self)) in
  E ← truediv (alpha self * float_of_int (m self ^ 2)) Z;
  let V := Py.count (registers self) 0 in
  if (E <=? 2.5 * fm)%float && (V >? 0) then
    l ← math_log log (fm / float_of_int V);
    Ok (fm * l)%float
  else Ok E.

End Methods.

(** The rank as the specification words it (4.3): [(32 - p) + 1] when
    [w] is 0, and [(32 - p) - bitLength(w) + 1] otherwise. *)
Definition rho_spec (p w : Z) : Z :=
  if w =? 0 then (32 - p) + 1 else (32 - p) - bit_length w + 1.

(** What the constructor establishes and every call keeps: [m = 2^p]
    registers. *)
Definition wf (self : t) : Prop :=
  0 <= p self /\ m self = 2 ^ p self /\
  length (registers self) = Z.to_nat (m self).

(** The parameters are the same in [self'] as in [self], and no register
    is lower in [self'] than in [self]. *)
Definition grows (self self' : t) : Prop :=
  p self' = p self /\ m self' = m self /\
  alpha self' = alpha self /\
  small_range_correction self' = small_range_correction self /\
  forall n r, registers self !! n = Some r ->
              exists r', registers self' !! n = Some r' /\ r <= r'.

End HyperLogLog.


(** The two quantities that the constructor stores, against the way the
    specification writes them: [5 * m / 2] is [2.5 * m], and multiplying
    [alpha] by [m] twice is multiplying it by [m^2]. *)
Definition params_agree (p : Z) : Prop :=
  forall a c,
    HyperLogLog._get_alpha (2 ^ p) = Ok a ->
    int_truediv (5 * 2 ^ p) 2 = Ok c ->
    c = (2.5 * float_of_int (2 ^ p))%float /\
    (a * float_of_int (2 ^ p) * float_of_int (2 ^ p))%float
      = (a * float_of_int ((2 ^ p) ^ 2))%float.

(** ** The scenarios of the specification (section 8) *)

(** Scenario 1: [BloomFilter(size=1000, num_hashes=3)] with three
    passwords added, computed with the reference hash. *)
Definition scenario_filter0 : BloomFilter.t :=
  BloomFilter.Build 1000 3 (list_mul 0 1000).

Definition scenario_adds : list BloomFilter.op :=
  [BloomFilter.Add (PyStr "password123");
   BloomFilter.Add (PyStr "admin123");
   BloomFilter.Add (PyStr "qwerty123")].

Definition scenario_filter : BloomFilter.t :=
  Eval vm_compute in
    match BloomFilter.run Mmh3.hash scenario_filter0 scenario_adds with
    | Ok bf => bf
    | Raise _ => scenario_filter0
    end.

(** Scenario 2: the candidates given to the classifier. *)
Definition scenario_items : list pyval :=
  [PyStr "password123"; PyStr "newpassword"; PyStr "admin123";
   PyStr "guest"; PyStr ""; PyNone].

(** The same candidates with a repeated password and the string
    ["None"] next to [None]. *)
Definition scenario_items_repeated : list pyval :=
  [PyStr "password123"; PyStr "newpassword"; PyStr "password123";
   PyStr ""; PyNone; PyStr "None"].

(** [HyperLogLog(p=4)] and [HyperLogLog()], whose [p] is 14, computed
    with the reference functions, and the second after a few calls. *)
Definition scenario_estimator4 : HyperLogLog.t :=
  Eval vm_compute in
    match HyperLogLog.__init__ (PyInt 4) with
    | Ok h => h
    | Raise _ => HyperLogLog.Build 0 0 [] 0 0
    end.

Definition scenario_estimator0 : HyperLogLog.t :=
  Eval vm_compute in
    match HyperLogLog.__init__ (PyInt 14) with
    | Ok h => h
    | Raise _ => HyperLogLog.Build 0 0 [] 0 0
    end.

Definition scenario_calls : list HyperLogLog.op :=
  [HyperLogLog.Add (PyStr "192.168.0.1"); HyperLogLog.Count;
   HyperLogLog.Add (PyStr "10.0.0.7"); HyperLogLog.Add (PyStr "192.168.0.1")].

Definition scenario_estimator : HyperLogLog.t :=
  Eval vm_compute in
    match HyperLogLog.run Mmh3.hash Libm.pow Libm.log scenario_estimator0
            scenario_calls with
    | Ok h => h
    | Raise _ => scenario_estimator0
    end.

(** ** Bounded quantification *)

(** [all_upto P n] is [P n /\ ... /\ P 0], for properties that are settled
    by running the code on each of [0 .. n]. *)
Fixpoint all_upto (P : Z -> Prop) (n : nat) : Prop :=
  match n with
  | O => P 0
  | S n' => P (Z.of_nat n) /\ all_upto P n'
  end.

(** ** The state of a filter in terms of what was added *)

(** The string that [add] and [contains] hash for an item, when they hash
    one: the item itself when it is a non-empty [str]. *)
Definition valid_string (item : pyval) : option string :=
  match item with
  | PyStr s => if String.eqb s "" then None else Some s
  | _ => None
  end.

(** The strings that the [add] calls of a sequence of calls hash. *)
Definition bloom_added (ops : list BloomFilter.op) : list string :=
  omap (fun o => match o with
                 | BloomFilter.Add item => valid_string item
                 | BloomFilter.Contains _ => None
                 end) ops.

(** The positions [hash(s, i) % M] for [i] in [range(K)]. *)
Definition bloom_slots (mmh3_hash : string -> Z -> Z) (M K : Z) (s : string)
    : list nat :=
  map (fun i => Z.to_nat (mmh3_hash s i mod M)) (range K).

(** The bits [bits] once those at the positions [ns] are set to 1. *)
Definition set_bits (bits : list Z) (ns : list nat) : list Z :=
  foldl (fun b n => <[n := 1]> b) bits ns.

(** The keys [ks] in the order of their first occurrence, each once. *)
Fixpoint first_occurrences (ks : list string) : list string :=
  match ks with
  | [] => []
  | k :: ks' =>
      k :: List.filter (fun k' => negb (String.eqb k k')) (first_occurrences ks')
  end.

(** ** The state of an estimator in terms of what was added *)

(** The items that the [add] calls of a sequence of calls hash. *)
Definition hll_added (ops : list HyperLogLog.op) : list pyval :=
  omap (fun o => match o with
                 | HyperLogLog.Add item => Some item
                 | HyperLogLog.Count => None
                 end) ops.

(** The register that [add] selects for an item in an estimator of
    precision [p], and the rank that it gives to the item. *)
Definition hll_index (mmh3_hash : string -> Z -> Z) (p : Z) (item : pyval) : nat :=
  Z.to_nat (Z.land (mmh3_hash (str item) HyperLogLog.SEED) (2 ^ p - 1)).

Definition hll_rank (mmh3_hash : string -> Z -> Z) (p : Z) (item : pyval) : Z :=
  HyperLogLog._rho (Z.shiftr (mmh3_hash (str item) HyperLogLog.SEED) p).

(** The highest rank among the items of [items] that select the
    register [n], and 0 when there is none. *)
Fixpoint max_rank (mmh3_hash : string -> Z -> Z) (p : Z) (n : nat)
    (items : list pyval) : Z :=
  match items with
  | [] => 0
  | item :: items' =>
      if Nat.eqb (hll_index mmh3_hash p item) n
      then Z.max (hll_rank mmh3_hash p item) (max_rank mmh3_hash p n items')
      else max_rank mmh3_hash p n items'
  end.

(** ** task-02.py: the two counting functions *)

(** [a == b] on the values: [None] equals itself only, a [bool] is the
    int 1 or 0, ints and strings compare by value, and an int never
    equals a [str]. *)
Definition py_eqb (a b : pyval) : bool :=
  match a, b with
  | PyNone, PyNone => true
  | PyStr s, PyStr s' => String.eqb s s'
  | (PyInt _ | PyBool _), (PyInt _ | PyBool _) => int_value a =? int_value b
  | _, _ => false
  end.

(** The value that stands for all the values equal to [v]: a [bool] is
    its int. *)
Definition canon (v : pyval) : pyval :=
  match v with
  | PyBool _ => PyInt (int_value v)
  | _ => v
  end.

(** [s.add(x)] on a set held as the list of its elements: nothing
    changes when an element equal to [x] is there. *)
Definition set_add (s : list pyval) (x : pyval) : list pyval :=
  if existsb (py_eqb x) s then s else (s ++ [x])%list.

(** [set(data)]: the elements of [data] are added in turn. *)
Definition set_of (data : list pyval) : list pyval := fold_left set_add data [].

(** [count_exact(data)]; [start_time] and [end_time] are the two
    readings of [time.perf_counter()]. *)
Definition count_exact (start_time end_time : float) (data : list pyval)
    : Z * float :=
  let unique_count := Z.of_nat (length (set_of data)) in
  (unique_count, (end_time - start_time)%float).

(** No two places of [data] hold equal values. *)
Definition pairwise_different (data : list pyval) : Prop :=
  forall i j x y,
    data !! i = Some x -> data !! j = Some y -> py_eqb x y = true -> i = j.

(** [x] equals an element of [data]. *)
Definition occurs_in (x : pyval) (data : list pyval) : Prop :=
  exists y, In y data /\ py_eqb x y = true.

Section CountHll.

Variable mmh3_hash : string -> Z -> Z.
Variable pow : float -> float -> float.
Variable log : float -> float.

(** The loop [for item in data: hll.add(item)]. *)
Fixpoint add_all (hll : HyperLogLog.t) (data : list pyval)
    : result HyperLogLog.t :=
  match data with
  | [] => Ok hll
  | item :: data' =>
      hll' ← HyperLogLog.add mmh3_hash hll item; add_all hll' data'
  end.

(** [count_hll(data, p)]; [start_time] and [end_time] are the two
    readings of [time.perf_counter()]. *)
Definition count_hll (start_time end_time : float) (data : list pyval)
    (p : pyval) : result (float * float) :=
  hll ← HyperLogLog.__init__ p;
  hll ← add_all hll data;
  estimated_count ← HyperLogLog.count pow log hll;
  Ok (estimated_count, (end_time - start_time)%float).

End CountHll.

(** * Properties *)

(** ** The exception monad and list indexing *)

Lemma bind_Ok {A B : Type} (a : A) (k : A -> result B) : (Ok a ≫= k) = k a.
Proof. reflexivity. Qed.

Lemma bind_Raise {A B : Type} (e : exn) (k : A -> result B) :
  (Raise e ≫= k) = Raise e.
Proof. reflexivity. Qed.

Lemma position_in_range (len : nat) (i : Z) :
  0 <= i < Z.of_nat len -> position len i = Some (Z.to_nat i).
Proof.
  intros Hi. unfold position.
  destruct (Z.ltb_spec i 0) as [Hneg | _]; [lia |].
  destruct (Z.leb_spec 0 i) as [_ | Hneg]; [| lia].
  destruct (Z.ltb_spec i (Z.of_nat len)) as [_ | Hge]; [reflexivity | lia].
Qed.

Lemma position_lt (len : nat) (i : Z) (n : nat) :
  position len i = Some n -> (n < len)%nat.
Proof.
  unfold position. intros H.
  destruct ((0 <=? _) && (_ <? _)) eqn:E; [| discriminate].
  apply andb_true_iff in E as [E1 E2].
  apply Z.leb_le in E1. apply Z.ltb_lt in E2.
  injection H as <-. lia.
Qed.

Lemma getitem_in_range {A : Type} (l : list A) (i : Z) (x : A) :
  0 <= i -> l !! Z.to_nat i = Some x -> getitem l i = Ok x.
Proof.
  intros Hi Hx. unfold getitem.
  assert (Z.to_nat i < length l)%nat by (eapply lookup_lt_Some; eauto).
  rewrite position_in_range by lia. by rewrite Hx.
Qed.

Lemma setitem_in_range {A : Type} (l : list A) (i : Z) (x : A) :
  0 <= i < Z.of_nat (length l) -> setitem l i x = Ok (<[Z.to_nat i := x]> l).
Proof. intros Hi. unfold setitem. by rewrite position_in_range. Qed.

Lemma mod_positive (a b : Z) : 0 < b -> mod_ a b = Ok (a mod b).
Proof.
  intros Hb. unfold mod_. destruct (Z.eqb_spec b 0); [lia | reflexivity].
Qed.

Lemma invalid_iff (item : pyval) :
  negb (truthy item) || negb (isinstance_str item) = false <->
  exists s, item = PyStr s /\ s <> "".
Proof.
  split.
  - intros H. apply orb_false_iff in H as [H1 H2].
    destruct item as [| b | z | s]; simpl in *; try discriminate.
    exists s. split; [reflexivity |].
    intros ->. discriminate.
  - intros (s & -> & Hs). simpl.
    destruct (String.eqb_spec s ""); [contradiction | reflexivity].
Qed.

(** ** The Bloom filter *)

Section BloomFilterFacts.

Import BloomFilter.

Variable mmh3_hash : string -> Z -> Z.

(** The position that the seed [i] gives to [data] in the filter. *)
Local Abbreviation slot self data i :=
  (Z.to_nat (mmh3_hash data i mod size self)).

Lemma with_bit_array_id (self : t) : with_bit_array self (bit_array self) = self.
Proof. by destruct self. Qed.

Lemma init_inv (M K : pyval) (self : t) :
  __init__ M K = Ok self ->
  isinstance_int M = true /\ isinstance_int K = true /\
  0 < int_value M /\ 0 < int_value K /\
  self = {| size := int_value M; num_hashes := int_value K;
            bit_array := replicate (Z.to_nat (int_value M)) 0 |}.
Proof.
  unfold __init__. intros H.
  destruct (isinstance_int M) eqn:HM; simpl in H; [| discriminate].
  destruct (Z.gtb_spec (int_value M) 0) as [HM0 |]; simpl in H; [| discriminate].
  destruct (isinstance_int K) eqn:HK; simpl in H; [| discriminate].
  destruct (Z.gtb_spec (int_value K) 0) as [HK0 |]; simpl in H; [| discriminate].
  injection H as <-. repeat split; lia.
Qed.

Lemma init_wf (M K : pyval) (self : t) : __init__ M K = Ok self -> wf self.
Proof.
  intros H. apply init_inv in H as (_ & _ & HM & _ & ->).
  repeat split; simpl; [lia | by rewrite length_replicate |].
  intros n b Hb. apply lookup_replicate in Hb as [-> _]. by left.
Qed.

Lemma slot_lt (self : t) (data : string) (i : Z) :
  wf self -> (slot self data i < length (bit_array self))%nat.
Proof.
  intros (Hsz & Hlen & _). rewrite Hlen.
  pose proof (Z.mod_pos_bound (mmh3_hash data i) (size self) Hsz). lia.
Qed.

(** The loop of [add] never raises on a well-formed filter; it sets the
    bits of the seeds it ran through and changes no other bit. *)
Lemma add_loop_spec (data : string) (seeds : list Z) (self : t) :
  wf self ->
  exists bits,
    add_loop mmh3_hash self data seeds = Ok (with_bit_array self bits) /\
    wf (with_bit_array self bits) /\
    (forall i, In i seeds -> bits !! slot self data i = Some 1) /\
    (forall n b, bit_array self !! n = Some b ->
                 bits !! n = Some b \/ bits !! n = Some 1).
Proof.
  revert self. induction seeds as [| i seeds IH]; intros self Hwf.
  - exists (bit_array self). rewrite with_bit_array_id.
    split; [done |]. split; [done |].
    split; [intros i [] | intros n b Hb; by left].
  - pose proof (slot_lt self data i Hwf) as Hlt.
    destruct Hwf as (Hsz & Hlen & Hbits).
    pose proof (Z.mod_pos_bound (mmh3_hash data i) (size self) Hsz) as Hrange.
    set (bits1 := <[slot self data i := 1]> (bit_array self)).
    assert (Hwf1 : wf (with_bit_array self bits1)).
    { subst bits1. repeat split; simpl; [done | by rewrite length_insert |].
      intros n b.
      destruct (decide (n = slot self data i)) as [-> | Hne].
      - rewrite list_lookup_insert_eq by done. intros [= <-]. by right.
      - rewrite list_lookup_insert_ne by done. apply Hbits. }
    destruct (IH _ Hwf1) as (bits & Hrun & Hwf2 & Hset & Hmono).
    exists bits. simpl.
    rewrite mod_positive, bind_Ok by done.
    rewrite setitem_in_range, bind_Ok by lia.
    fold bits1. split; [done |]. split; [done |]. split.
    + intros i' [<- | Hin]; [| by apply Hset].
      destruct (Hmono (slot self data i) 1) as [H | H]; try done.
      simpl. subst bits1. by rewrite list_lookup_insert_eq.
    + intros n b Hb. simpl in Hmono. subst bits1.
      destruct (decide (n = slot self data i)) as [-> | Hne].
      * right. destruct (Hmono (slot self data i) 1) as [H | H]; try done.
        by rewrite list_lookup_insert_eq.
      * apply Hmono. by rewrite list_lookup_insert_ne.
Qed.

(** The loop of [contains] never raises on a well-formed filter. *)
Lemma contains_loop_total (data : string) (seeds : list Z) (self : t) :
  wf self -> exists b, contains_loop mmh3_hash self data seeds = Ok b.
Proof.
  intros Hwf. induction seeds as [| i seeds IH]; [by exists true |].
  pose proof (slot_lt self data i Hwf) as Hlt.
  destruct (lookup_lt_is_Some_2 _ _ Hlt) as [bit Hbit].
  destruct Hwf as (Hsz & Hlen & Hbits).
  pose proof (Z.mod_pos_bound (mmh3_hash data i) (size self) Hsz) as Hrange.
  simpl. rewrite mod_positive, bind_Ok by done.
  rewrite (getitem_in_range _ _ bit), bind_Ok by (done || lia).
  destruct (bit =? 0); [by exists false | done].
Qed.

(** It answers [True] when the bits of all the seeds are set. *)
Lemma contains_loop_true (data : string) (seeds : list Z) (self : t) :
  wf self ->
  (forall i, In i seeds -> bit_array self !! slot self data i = Some 1) ->
  contains_loop mmh3_hash self data seeds = Ok true.
Proof.
  intros Hwf. induction seeds as [| i seeds IH]; intros Hset; [done |].
  destruct Hwf as (Hsz & Hlen & Hbits).
  pose proof (Z.mod_pos_bound (mmh3_hash data i) (size self) Hsz) as Hrange.
  simpl. rewrite mod_positive, bind_Ok by done.
  rewrite (getitem_in_range _ _ 1), bind_Ok by (lia || apply Hset; by left).
  simpl. apply IH. intros i' Hi'. apply Hset. by right.
Qed.

Lemma invalid_item_guard (item : pyval) :
  invalid_item item <-> negb (truthy item) || negb (isinstance_str item) = true.
Proof.
  split.
  - intros [-> | [-> | H]]; [done | done |].
    destruct item as [| b | z | s]; simpl; rewrite ?orb_true_r; [done .. |].
    by destruct (H s).
  - intros H. destruct item as [| b | z | s].
    + by left.
    + right; right. done.
    + right; right. done.
    + right; left. simpl in H. rewrite orb_false_r in H.
      apply negb_true_iff in H. destruct (String.eqb_spec s ""); [by subst | done].
Qed.

Lemma valid_item_guard (s : string) :
  s <> "" -> negb (truthy (PyStr s)) || negb (isinstance_str (PyStr s)) = false.
Proof. intros Hs. apply invalid_iff. by exists s. Qed.

(** [add] on a well-formed filter: it returns a well-formed filter of
    the same size and number of hashes, in which every bit is as before
    or 1, and the bits of a non-empty string item are all 1. *)
Lemma add_spec (self : t) (item : pyval) :
  wf self ->
  exists self',
    add mmh3_hash self item = Ok self' /\ wf self' /\
    size self' = size self /\ num_hashes self' = num_hashes self /\
    (forall n b, bit_array self !! n = Some b ->
                 bit_array self' !! n = Some b \/ bit_array self' !! n = Some 1) /\
    (forall s, item = PyStr s -> s <> "" ->
       forall i, In i (range (num_hashes self)) ->
                 bit_array self' !! slot self s i = Some 1).
Proof.
  intros Hwf. unfold add.
  destruct (negb (truthy item) || negb (isinstance_str item)) eqn:Hguard.
  - exists self. repeat split; try apply Hwf; try done.
    + intros n b Hb. by left.
    + intros s -> Hs. by rewrite valid_item_guard in Hguard.
  - destruct (add_loop_spec (encode_utf8 item) (range (num_hashes self)) self Hwf)
      as (bits & Hrun & Hwf' & Hset & Hmono).
    exists (with_bit_array self bits). repeat split; try apply Hwf'; try done.
    intros s -> Hs i Hi. by apply Hset.
Qed.

(** [contains] never raises on a well-formed filter. *)
Lemma contains_total (self : t) (item : pyval) :
  wf self -> exists b, contains mmh3_hash self item = Ok b.
Proof.
  intros Hwf. unfold contains.
  destruct (negb (truthy item) || negb (isinstance_str item)); [by exists false |].
  by apply contains_loop_total.
Qed.

Lemma grows_refl (self : t) : grows self self.
Proof. by repeat split. Qed.

Lemma grows_trans (s1 s2 s3 : t) : grows s1 s2 -> grows s2 s3 -> grows s1 s3.
Proof.
  intros (Hs & Hk & Hb) (Hs' & Hk' & Hb'). repeat split; try congruence.
  intros n Hn. by apply Hb', Hb.
Qed.

Lemma step_spec (self : t) (o : op) :
  wf self -> exists self', step mmh3_hash self o = Ok self' /\ wf self' /\ grows self self'.
Proof.
  intros Hwf. destruct o as [item | item]; simpl.
  - destruct (add_spec self item Hwf) as (self' & Hadd & Hwf' & Hs & Hk & Hmono & _).
    exists self'. split; [done |]. split; [done |].
    split; [done |]. split; [done |].
    intros n Hn. by destruct (Hmono n 1 Hn).
  - destruct (contains_total self item Hwf) as [b ->].
    exists self. split; [done |]. split; [done | apply grows_refl].
Qed.

Lemma run_spec (ops : list op) (self : t) :
  wf self -> exists self', run mmh3_hash self ops = Ok self' /\ wf self' /\ grows self self'.
Proof.
  revert self. induction ops as [| o ops IH]; intros self Hwf.
  - exists self. split; [done |]. split; [done | apply grows_refl].
  - destruct (step_spec self o Hwf) as (s1 & Hstep & Hwf1 & Hg1).
    destruct (IH s1 Hwf1) as (s2 & Hrun & Hwf2 & Hg2).
    exists s2. simpl. rewrite Hstep, bind_Ok.
    split; [done |]. split; [done | by eapply grows_trans].
Qed.

(** [contains] answers [True] for a non-empty string whose bits are all
    set. *)
Lemma contains_when_set (self : t) (s : string) :
  wf self -> s <> "" ->
  (forall i, In i (range (num_hashes self)) ->
             bit_array self !! slot self s i = Some 1) ->
  contains mmh3_hash self (PyStr s) = Ok true.
Proof.
  intros Hwf Hs Hset. unfold contains. rewrite valid_item_guard by done.
  by apply contains_loop_true.
Qed.

(** C9. For an item that is absent ([None]), empty, or not a string,
    [add] raises nothing and returns the filter unchanged, and
    [contains] returns [False]; this holds for every filter. *)
Theorem invalid_item_is_ignored (self : t) (item : pyval) :
  invalid_item item ->
  add mmh3_hash self item = Ok self /\
  contains mmh3_hash self item = Ok false.
Proof.
  intros H. apply invalid_item_guard in H.
  unfold add, contains. by rewrite H.
Qed.

(** C4. No false negatives: on a filter built by the constructor and
    taken through any calls, adding a non-empty string [x] succeeds,
    [contains(x)] is [True] right after, and it is still [True] after
    any further calls, none of which raises. *)
Theorem no_false_negatives (M K : pyval) (bf0 : t) (before later : list op)
    (x : string) :
  __init__ M K = Ok bf0 ->
  x <> "" ->
  exists bf1 bf2 bf3,
    run mmh3_hash bf0 before = Ok bf1 /\
    add mmh3_hash bf1 (PyStr x) = Ok bf2 /\
    contains mmh3_hash bf2 (PyStr x) = Ok true /\
    run mmh3_hash bf2 later = Ok bf3 /\
    contains mmh3_hash bf3 (PyStr x) = Ok true.
Proof.
  intros Hinit Hx. apply init_wf in Hinit.
  destruct (run_spec before bf0 Hinit) as (bf1 & Hrun1 & Hwf1 & _).
  destruct (add_spec bf1 (PyStr x) Hwf1)
    as (bf2 & Hadd & Hwf2 & Hs2 & Hk2 & _ & Hset).
  destruct (run_spec later bf2 Hwf2) as (bf3 & Hrun3 & Hwf3 & Hs3 & Hk3 & Hg3).
  exists bf1, bf2, bf3. repeat split; try done.
  - apply contains_when_set; try done.
    intros i Hi. rewrite Hs2. apply (Hset x); congruence.
  - apply contains_when_set; try done.
    intros i Hi. rewrite Hs3. apply Hg3. rewrite Hs2.
    apply (Hset x); congruence.
Qed.

End BloomFilterFacts.

(** ** Dictionaries *)

Section DictFacts.

Implicit Types (d : dict) (k v : string) (kvs : list (string * string)).

Lemma dict_get_set d k v k' :
  dict_get (dict_set d k v) k' = if String.eqb k k' then Some v else dict_get d k'.
Proof.
  induction d as [| [k0 v0] d IH]; simpl.
  - destruct (String.eqb_spec k k'); reflexivity.
  - destruct (String.eqb_spec k0 k) as [-> | Hne]; simpl.
    + destruct (String.eqb_spec k k'); reflexivity.
    + rewrite IH. destruct (String.eqb_spec k0 k') as [-> | Hne']; [| done].
      destruct (String.eqb_spec k k'); congruence.
Qed.

Lemma dict_set_present d k v :
  In k (dict_keys d) -> dict_keys (dict_set d k v) = dict_keys d.
Proof.
  induction d as [| [k0 v0] d IH]; simpl; [done |].
  intros Hin. destruct (String.eqb_spec k0 k) as [-> | Hne]; simpl; [done |].
  f_equal. apply IH. by destruct Hin.
Qed.

Lemma dict_set_fresh d k v :
  ~ In k (dict_keys d) -> dict_set d k v = (d ++ [(k, v)])%list.
Proof.
  induction d as [| [k0 v0] d IH]; simpl; [done |].
  intros Hin. destruct (String.eqb_spec k0 k) as [-> | Hne].
  - destruct Hin. by left.
  - f_equal. apply IH. intros H. apply Hin. by right.
Qed.

Lemma dict_set_In d k v k' :
  In k' (dict_keys (dict_set d k v)) <-> k' = k \/ In k' (dict_keys d).
Proof.
  destruct (in_dec string_dec k (dict_keys d)) as [Hin | Hout].
  - rewrite dict_set_present by done.
    split; [by right | intros [-> | H]; done].
  - rewrite dict_set_fresh by done. unfold dict_keys.
    rewrite map_app, in_app_iff. simpl.
    split; [intros [H | [<- | []]]; [by right | by left] |].
    intros [-> | H]; [right; by left | by left].
Qed.

Lemma dict_set_NoDup d k v :
  List.NoDup (dict_keys d) -> List.NoDup (dict_keys (dict_set d k v)).
Proof.
  intros Hnd. destruct (in_dec string_dec k (dict_keys d)) as [Hin | Hout].
  - by rewrite dict_set_present.
  - rewrite dict_set_fresh by done. unfold dict_keys. rewrite map_app. simpl.
    apply NoDup_ListNoDup. apply NoDup_ListNoDup in Hnd.
    apply NoDup_app. split; [done |]. split; [| apply NoDup_singleton].
    intros x Hx Hx'. apply list_elem_of_In in Hx.
    apply list_elem_of_singleton in Hx'. by subst.
Qed.

Lemma dict_set_length d k v :
  (length (dict_set d k v) <= S (length d))%nat.
Proof.
  induction d as [| [k0 v0] d IH]; simpl; [lia |].
  destruct (String.eqb k0 k); simpl; lia.
Qed.

(** After a run of assignments, a key holds the value of the last
    assignment made to it, or what it held before. *)
Lemma dict_get_update kvs d k :
  dict_get (dict_update d kvs) k =
  match last_binding k kvs with
  | Some v => Some v
  | None => dict_get d k
  end.
Proof.
  revert d. induction kvs as [| [k0 v0] kvs IH]; intros d; [done |].
  unfold dict_update in *. simpl. rewrite IH.
  destruct (last_binding k kvs); [done |].
  rewrite dict_get_set. by destruct (String.eqb k0 k).
Qed.

Lemma dict_update_In kvs d k :
  In k (dict_keys (dict_update d kvs)) <->
  In k (dict_keys d) \/ In k (map fst kvs).
Proof.
  revert d. induction kvs as [| [k0 v0] kvs IH]; intros d.
  - simpl. tauto.
  - unfold dict_update in *. simpl. rewrite IH, dict_set_In.
    split; [intros [[-> | H] | H] | intros [H | [<- | H]]]; tauto.
Qed.

Lemma dict_update_NoDup kvs d :
  List.NoDup (dict_keys d) -> List.NoDup (dict_keys (dict_update d kvs)).
Proof.
  revert d. induction kvs as [| [k0 v0] kvs IH]; intros d Hnd; [done |].
  unfold dict_update in *. simpl. by apply IH, dict_set_NoDup.
Qed.

Lemma dict_update_length kvs d :
  (length (dict_update d kvs) <= length d + length kvs)%nat.
Proof.
  revert d. induction kvs as [| [k0 v0] kvs IH]; intros d; [simpl; lia |].
  unfold dict_update in *. simpl. specialize (IH (dict_set d k0 v0)).
  pose proof (dict_set_length d k0 v0). lia.
Qed.

(** Assignments to keys that are new and pairwise distinct append their
    pairs in order. *)
Lemma dict_update_fresh kvs d :
  List.NoDup (dict_keys d ++ map fst kvs)%list ->
  dict_update d kvs = (d ++ kvs)%list.
Proof.
  revert d. induction kvs as [| [k0 v0] kvs IH]; intros d Hnd.
  - simpl. by rewrite app_nil_r.
  - unfold dict_update in *. simpl in *.
    assert (Hout : ~ In k0 (dict_keys d)).
    { intros Hin. apply NoDup_remove_2 in Hnd. apply Hnd.
      apply in_app_iff. by left. }
    rewrite (dict_set_fresh d k0 v0 Hout), IH.
    + by rewrite <- app_assoc.
    + unfold dict_keys in *. rewrite map_app. simpl. rewrite <- app_assoc. done.
Qed.

End DictFacts.

(** ** The batch classifier *)

Section ClassifierFacts.

Import BloomFilter.

Variable mmh3_hash : string -> Z -> Z.

(** A filter built by the constructor and taken through any calls is
    well formed. *)
Lemma built_wf (M K : pyval) (bf0 bf : t) (ops : list op) :
  __init__ M K = Ok bf0 -> run mmh3_hash bf0 ops = Ok bf -> wf bf.
Proof.
  intros Hinit Hrun. apply init_wf in Hinit.
  destruct (run_spec mmh3_hash ops bf0 Hinit) as (bf' & Hrun' & Hwf & _).
  congruence.
Qed.

(** The loop makes one assignment for each item, in order. *)
Lemma check_loop_spec (bf : t) (items : list pyval) (acc : dict) :
  wf bf ->
  exists kvs,
    entries_of mmh3_hash bf items kvs /\
    check_loop mmh3_hash bf items acc = Ok (dict_update acc kvs).
Proof.
  intros Hwf. revert acc.
  induction items as [| item items IH]; intros acc.
  - exists []. split; [constructor | done].
  - simpl.
    destruct (negb (truthy item) || negb (isinstance_str item)) eqn:Hguard.
    + destruct (IH (dict_set acc (str item) STATUS_INVALID)) as (kvs & Hkvs & Hrun).
      exists ((str item, STATUS_INVALID) :: kvs). split; [| done].
      constructor; [| done]. split; [done |].
      left. split; [| done]. by apply invalid_item_guard.
    + assert (Hvalid : ~ invalid_item item).
      { intros H. apply invalid_item_guard in H. congruence. }
      apply invalid_iff in Hguard as (s & -> & Hs).
      destruct (contains_total mmh3_hash bf (PyStr s) Hwf) as [b Hb].
      rewrite Hb. simpl.
      destruct b.
      * destruct (IH (dict_set acc s STATUS_USED)) as (kvs & Hkvs & Hrun).
        exists ((s, STATUS_USED) :: kvs). split; [| done].
        constructor; [| done]. split; [done |].
        right; left. done.
      * destruct (IH (dict_set acc s STATUS_UNIQUE)) as (kvs & Hkvs & Hrun).
        exists ((s, STATUS_UNIQUE) :: kvs). split; [| done].
        constructor; [| done]. split; [done |].
        right; right. done.
Qed.

Lemma entries_keys (bf : t) (items : list pyval) (kvs : list (string * string)) :
  entries_of mmh3_hash bf items kvs -> map fst kvs = map str items.
Proof.
  induction 1 as [| item kv items kvs [Hk _] _ IH]; [done |].
  simpl. by rewrite Hk, IH.
Qed.

Lemma entries_last (bf : t) (items : list pyval) (kvs : list (string * string))
    (k : string) :
  entries_of mmh3_hash bf items kvs ->
  match last_with_key k items with
  | Some item => exists st, last_binding k kvs = Some st /\
                            has_status mmh3_hash bf item st
  | None => last_binding k kvs = None
  end.
Proof.
  induction 1 as [| item kv items kvs [Hk Hst] _ IH]; [done |].
  simpl. destruct (last_with_key k items) as [item' |].
  - destruct IH as (st & -> & Hst'). by exists st.
  - rewrite IH, Hk. destruct (String.eqb (str item) k); [| done].
    by exists (snd kv).
Qed.

Lemma entries_one_status (bf : t) (items : list pyval)
    (kvs : list (string * string)) :
  entries_of mmh3_hash bf items kvs -> one_status_per_item mmh3_hash bf items kvs.
Proof.
  intros H. split; [symmetry; by eapply Forall2_length |].
  intros i item Hi.
  destruct (Forall2_lookup_l _ _ _ _ _ H Hi) as ([k st] & Hkv & Hk & Hst).
  simpl in *. subst k. by exists st.
Qed.

(** C8 (as amended). When the string forms [str(item)] of the items are
    pairwise distinct, the classifier returns, for a filter built by the
    constructor and taken through any calls, one entry for each item in
    input order, holding the invalid status when the item is absent,
    empty or not a string, the possibly-present status when [contains]
    is true and the unique status when it is false. *)
Theorem classifier_distinct_items (M K : pyval) (bf0 bf : t) (ops : list op)
    (items : list pyval) :
  __init__ M K = Ok bf0 ->
  run mmh3_hash bf0 ops = Ok bf ->
  List.NoDup (map str items) ->
  exists d,
    check_password_uniqueness mmh3_hash bf items = Ok d /\
    one_status_per_item mmh3_hash bf items d.
Proof.
  intros Hinit Hrun Hnd.
  pose proof (built_wf _ _ _ _ _ Hinit Hrun) as Hwf.
  destruct (check_loop_spec bf items [] Hwf) as (kvs & Hkvs & Hcheck).
  exists kvs. unfold check_password_uniqueness. rewrite Hcheck.
  rewrite dict_update_fresh by (simpl; by rewrite (entries_keys _ _ _ Hkvs)).
  split; [done | by apply entries_one_status].
Qed.

(** C10. The classifier returns a dictionary keyed by [str(item)]: its
    keys are the string forms of the items, each once; a key holds the
    status of the last item with that string form; hence there are at
    most as many entries as items.  [None] goes under the key ["None"],
    and the two items [None], ["None"] give the single entry of
    ["None"], with the status of the string. *)
Theorem classifier_keyed_by_str (M K : pyval) (bf0 bf : t) (ops : list op)
    (items : list pyval) :
  __init__ M K = Ok bf0 ->
  run mmh3_hash bf0 ops = Ok bf ->
  (exists d,
     check_password_uniqueness mmh3_hash bf items = Ok d /\
     List.NoDup (dict_keys d) /\
     (forall k, In k (dict_keys d) <-> exists item, In item items /\ str item = k) /\
     (forall k item,
        last_with_key k items = Some item ->
        exists st, dict_get d k = Some st /\ has_status mmh3_hash bf item st) /\
     (length d <= length items)%nat) /\
  check_password_uniqueness mmh3_hash bf [PyNone] = Ok [("None", STATUS_INVALID)] /\
  (exists st,
     check_password_uniqueness mmh3_hash bf [PyNone; PyStr "None"]
       = Ok [("None", st)] /\
     has_status mmh3_hash bf (PyStr "None") st).
Proof.
  intros Hinit Hrun.
  pose proof (built_wf _ _ _ _ _ Hinit Hrun) as Hwf.
  split; [| split].
  - destruct (check_loop_spec bf items [] Hwf) as (kvs & Hkvs & Hcheck).
    exists (dict_update [] kvs). split; [done |].
    split; [apply dict_update_NoDup; constructor |].
    split; [| split].
    + intros k. rewrite dict_update_In, (entries_keys _ _ _ Hkvs), in_map_iff.
      simpl. split.
      * intros [[] | (item & Hk & Hin)]. by exists item.
      * intros (item & Hin & Hk). right. by exists item.
    + intros k item Hlast. rewrite dict_get_update.
      pose proof (entries_last bf items kvs k Hkvs) as H.
      rewrite Hlast in H. destruct H as (st & -> & Hst). by exists st.
    + pose proof (dict_update_length kvs []) as Hlen.
      apply Forall2_length in Hkvs. simpl in Hlen. lia.
  - done.
  - destruct (check_loop_spec bf [PyStr "None"] [("None", STATUS_INVALID)] Hwf)
      as (kvs & Hkvs & Hcheck).
    inversion Hkvs as [| item [k st] items' kvs' [Hk Hst] Hrest]; subst.
    inversion Hrest; subst. simpl in Hk, Hst. subst k.
    exists st. split; [| done].
    unfold check_password_uniqueness. simpl check_loop at 1.
    simpl in Hcheck. by rewrite Hcheck.
Qed.

End ClassifierFacts.

(** ** HyperLogLog: the registers *)

Section HyperLogLogRegisters.

Import HyperLogLog.

Variable mmh3_hash : string -> Z -> Z.
Variable pow : float -> float -> float.
Variable log : float -> float.

(** The register that [add(item)] selects and the bits it ranks. *)
Local Abbreviation hash_of item := (mmh3_hash (str item) SEED).
Local Abbreviation index_of self item := (Z.land (hash_of item) (m self - 1)).
Local Abbreviation rest_of self item := (Z.shiftr (hash_of item) (p self)).

Lemma with_registers_id (self : t) : with_registers self (registers self) = self.
Proof. by destruct self. Qed.

Lemma hll_init_inv (pv : pyval) (self : t) :
  __init__ pv = Ok self ->
  isinstance_int pv = true /\ 0 <= int_value pv /\
  p self = int_value pv /\ m self = 2 ^ int_value pv /\
  registers self = replicate (Z.to_nat (m self)) 0 /\
  _get_alpha (m self) = Ok (alpha self) /\
  int_truediv (5 * m self) 2 = Ok (small_range_correction self).
Proof.
  unfold __init__, lshift. intros H.
  destruct (isinstance_int pv); [| discriminate].
  destruct (Z.ltb_spec (int_value pv) 0) as [| Hp]; [discriminate |].
  rewrite bind_Ok in H. rewrite Z.shiftl_1_l in H.
  destruct (_get_alpha (2 ^ int_value pv)) as [a |] eqn:Ha; [| discriminate].
  rewrite bind_Ok in H.
  destruct (int_truediv (5 * 2 ^ int_value pv) 2) as [c |] eqn:Hc; [| discriminate].
  rewrite bind_Ok in H. injection H as <-. simpl. by repeat split.
Qed.

Lemma hll_init_wf (pv : pyval) (self : t) : __init__ pv = Ok self -> wf self.
Proof.
  intros H. apply hll_init_inv in H as (_ & Hp & Hpe & Hm & Hregs & _).
  repeat split; [lia | congruence |]. by rewrite Hregs, length_replicate.
Qed.

Lemma index_in_range (self : t) (item : pyval) :
  wf self -> 0 <= index_of self item < Z.of_nat (length (registers self)).
Proof.
  intros (Hp & Hm & Hlen). rewrite Hlen, Hm.
  replace (2 ^ p self - 1) with (Z.ones (p self))
    by (rewrite Z.ones_equiv; lia).
  rewrite Z.land_ones by done.
  pose proof (Z.mod_pos_bound (hash_of item) (2 ^ p self)). lia.
Qed.

(** [add] on an estimator with [m = 2^p] registers never raises: it
    raises the register of index [x & (m - 1)] to the maximum of its
    value and of [_rho(x >> p)], and leaves the rest as it is. *)
Lemma hll_add_spec (self : t) (item : pyval) :
  wf self ->
  exists old,
    registers self !! Z.to_nat (index_of self item) = Some old /\
    add mmh3_hash self item =
      Ok (with_registers self
            (<[Z.to_nat (index_of self item) :=
                 Z.max old (_rho (rest_of self item))]> (registers self))).
Proof.
  intros Hwf. pose proof (index_in_range self item Hwf) as Hj.
  destruct (lookup_lt_is_Some_2 (registers self) (Z.to_nat (index_of self item)))
    as [old Hold]; [lia |].
  exists old. split; [done |].
  destruct Hwf as (Hp & _). unfold add, rshift.
  destruct (Z.ltb_spec (p self) 0); [lia |].
  rewrite bind_Ok, (getitem_in_range _ _ old), bind_Ok by (done || lia).
  by rewrite setitem_in_range, bind_Ok by lia.
Qed.

Lemma hll_grows_refl (self : t) : grows self self.
Proof. repeat split. intros n r Hr. exists r. split; [done | lia]. Qed.

Lemma hll_grows_trans (s1 s2 s3 : t) : grows s1 s2 -> grows s2 s3 -> grows s1 s3.
Proof.
  intros (Hp & Hm & Ha & Hc & Hr) (Hp' & Hm' & Ha' & Hc' & Hr').
  repeat split; try congruence.
  intros n r Hn. destruct (Hr n r Hn) as (r1 & Hn1 & Hle).
  destruct (Hr' n r1 Hn1) as (r2 & Hn2 & Hle'). exists r2. split; [done | lia].
Qed.

Lemma hll_add_grows (self self' : t) (item : pyval) :
  wf self -> add mmh3_hash self item = Ok self' -> wf self' /\ grows self self'.
Proof.
  intros Hwf Hadd.
  destruct (hll_add_spec self item Hwf) as (old & Hold & Heq).
  rewrite Heq in Hadd. injection Hadd as <-.
  destruct Hwf as (Hp & Hm & Hlen). split.
  - repeat split; simpl; [done | done | by rewrite length_insert].
  - repeat split. simpl. intros n r Hn.
    destruct (decide (n = Z.to_nat (index_of self item))) as [-> | Hne].
    + rewrite list_lookup_insert_eq by (by eapply lookup_lt_Some).
      eexists. split; [done |]. rewrite Hold in Hn. injection Hn as ->. lia.
    + rewrite list_lookup_insert_ne by done. exists r. split; [done | lia].
Qed.

Lemma hll_step_grows (self self' : t) (o : op) :
  wf self -> step mmh3_hash pow log self o = Ok self' ->
  wf self' /\ grows self self'.
Proof.
  intros Hwf. destruct o as [item |]; simpl.
  - by apply hll_add_grows.
  - destruct (count pow log self); [| discriminate].
    intros [= <-]. split; [done | apply hll_grows_refl].
Qed.

Lemma hll_run_grows (ops : list op) (self self' : t) :
  wf self -> run mmh3_hash pow log self ops = Ok self' ->
  wf self' /\ grows self self'.
Proof.
  revert self. induction ops as [| o ops IH]; intros self Hwf; simpl.
  - intros [= <-]. split; [done | apply hll_grows_refl].
  - destruct (step mmh3_hash pow log self o) as [s1 |] eqn:Hstep; [| discriminate].
    rewrite bind_Ok. intros Hrun.
    destruct (hll_step_grows _ _ _ Hwf Hstep) as [Hwf1 Hg1].
    destruct (IH _ Hwf1 Hrun) as [Hwf2 Hg2].
    split; [done | by eapply hll_grows_trans].
Qed.

(** A run of [add] calls never raises. *)
Lemma hll_run_adds_total (items : list pyval) (self : t) :
  wf self -> exists self', run mmh3_hash pow log self (map Add items) = Ok self'.
Proof.
  revert self. induction items as [| item items IH]; intros self Hwf; simpl.
  - by exists self.
  - destruct (hll_add_spec self item Hwf) as (old & _ & Heq).
    destruct (hll_add_grows _ _ _ Hwf Heq) as [Hwf' _].
    rewrite Heq, bind_Ok. by apply IH.
Qed.

(** The rank of the code against the rank of the specification: the
    code counts in a width of 32 bits whatever [p] is. *)
Lemma rho_against_spec (p w : Z) :
  _rho w = if w =? 0 then rho_spec p w + p - 1 else rho_spec p w + p.
Proof. unfold _rho, rho_spec. destruct (w =? 0); lia. Qed.

Lemma bit_length_bound (w : Z) : 0 <= w < 2 ^ 32 -> 0 <= bit_length w <= 32.
Proof.
  intros Hw. unfold bit_length. destruct (Z.eqb_spec w 0); [lia |].
  rewrite Z.abs_eq by lia.
  assert (Z.log2 w < 32) by (apply Z.log2_lt_pow2; lia).
  pose proof (Z.log2_nonneg w). lia.
Qed.

Lemma rho_range (w : Z) : 0 <= w < 2 ^ 32 -> 1 <= _rho w <= 32.
Proof.
  intros Hw. pose proof (bit_length_bound w Hw) as Hb. unfold _rho.
  destruct (Z.eqb_spec w 0); [lia |].
  assert (0 < bit_length w); [| lia].
  unfold bit_length. destruct (Z.eqb_spec w 0); [lia |].
  pose proof (Z.log2_nonneg (Z.abs w)). lia.
Qed.

(** C1. For every item added to an estimator built by the constructor
    and taken through any calls, the value written (through [max]) to
    the selected register is [_rho(w)] with [w = x >> p]: 32 when [w] is
    0 and [32 - bitLength(w) + 1] otherwise.  It is not the rank of the
    specification: it exceeds [(32 - p) - bitLength(w) + 1] by [p] when
    [w] is not 0, and [(32 - p) + 1] by [p - 1] when [w] is 0. *)
Theorem add_rank_has_width_32 (pv : pyval) (h0 h : t) (ops : list op)
    (item : pyval) :
  __init__ pv = Ok h0 ->
  run mmh3_hash pow log h0 ops = Ok h ->
  exists old,
    registers h !! Z.to_nat (index_of h item) = Some old /\
    add mmh3_hash h item =
      Ok (with_registers h
            (<[Z.to_nat (index_of h item) :=
                 Z.max old (_rho (rest_of h item))]> (registers h))) /\
    _rho (rest_of h item) =
      (if rest_of h item =? 0 then 32 else 32 - bit_length (rest_of h item) + 1) /\
    _rho (rest_of h item) =
      (if rest_of h item =? 0
       then rho_spec (p h) (rest_of h item) + p h - 1
       else rho_spec (p h) (rest_of h item) + p h).
Proof.
  intros Hinit Hrun. apply hll_init_wf in Hinit.
  destruct (hll_run_grows _ _ _ Hinit Hrun) as [Hwf _].
  destruct (hll_add_spec h item Hwf) as (old & Hold & Hadd).
  exists old. split; [done |]. split; [done |].
  split; [done | apply rho_against_spec].
Qed.

Hypothesis mmh3_hash_range : forall data seed, 0 <= mmh3_hash data seed < 2 ^ 32.

Lemma rest_range (self : t) (item : pyval) :
  wf self -> 0 <= rest_of self item < 2 ^ 32.
Proof.
  intros (Hp & _). pose proof (mmh3_hash_range (str item) SEED) as Hx.
  rewrite Z.shiftr_div_pow2 by done.
  assert (0 < 2 ^ p self) by (apply Z.pow_pos_nonneg; lia).
  split; [apply Z.div_pos; lia |].
  apply Z.div_lt_upper_bound; [lia |]. nia.
Qed.

(** C6 (as amended). [add] makes no check on its item: for every item,
    [None], the empty string and non-strings included, it hashes
    [str(item)] and raises the selected register to the maximum of its
    value and of a rank that is at least 1.  So the registers change
    whenever the selected register is below that rank, which is the case
    of every register of a new estimator. *)
Theorem add_hashes_every_item (pv : pyval) (h0 h : t) (ops : list op)
    (item : pyval) :
  __init__ pv = Ok h0 ->
  run mmh3_hash pow log h0 ops = Ok h ->
  exists old h',
    registers h !! Z.to_nat (index_of h item) = Some old /\
    add mmh3_hash h item = Ok h' /\
    registers h' =
      <[Z.to_nat (index_of h item) :=
          Z.max old (_rho (rest_of h item))]> (registers h) /\
    1 <= _rho (rest_of h item) <= 32 /\
    (old < _rho (rest_of h item) -> registers h' <> registers h) /\
    (ops = [] -> old = 0).
Proof.
  intros Hinit Hrun. pose proof (hll_init_wf _ _ Hinit) as Hwf0.
  destruct (hll_run_grows _ _ _ Hwf0 Hrun) as [Hwf _].
  destruct (hll_add_spec h item Hwf) as (old & Hold & Hadd).
  pose proof (rho_range _ (rest_range h item Hwf)) as Hrho.
  eexists old, _. split; [done |]. split; [done |]. simpl.
  split; [done |]. split; [done |]. split.
  - intros Hlt Heq. apply (f_equal (fun l => l !! Z.to_nat (index_of h item))) in Heq.
    rewrite list_lookup_insert_eq in Heq by (by eapply lookup_lt_Some).
    rewrite Hold in Heq. injection Heq. lia.
  - intros ->. simpl in Hrun. injection Hrun as <-.
    apply hll_init_inv in Hinit as (_ & _ & _ & _ & Hregs & _).
    rewrite Hregs in Hold. by apply lookup_replicate in Hold as [-> _].
Qed.

End HyperLogLogRegisters.

(** ** Monotonicity of both structures *)

Section Monotone.

Variable mmh3_hash : string -> Z -> Z.
Variable pow : float -> float -> float.
Variable log : float -> float.

(** C5. Over any sequence of calls, no position of the state goes down.
    A filter built by the constructor goes through any calls without
    raising, keeps its number of bits, and a bit never decreases: a bit
    that is 1 stays 1.  An estimator built by the constructor keeps its
    number of registers through any calls that return, no register ever
    decreases, and its [add] never raises. *)
Theorem state_never_decreases :
  (forall (M K : pyval) (bf0 : BloomFilter.t) (ops1 ops2 : list BloomFilter.op),
     BloomFilter.__init__ M K = Ok bf0 ->
     exists bf1 bf2,
       BloomFilter.run mmh3_hash bf0 ops1 = Ok bf1 /\
       BloomFilter.run mmh3_hash bf1 ops2 = Ok bf2 /\
       length (BloomFilter.bit_array bf2) = length (BloomFilter.bit_array bf1) /\
       forall n b, BloomFilter.bit_array bf1 !! n = Some b ->
         exists b', BloomFilter.bit_array bf2 !! n = Some b' /\
                    b <= b' /\ (b = 1 -> b' = 1)) /\
  (forall (pv : pyval) (h0 h1 h2 : HyperLogLog.t) (ops1 ops2 : list HyperLogLog.op),
     HyperLogLog.__init__ pv = Ok h0 ->
     HyperLogLog.run mmh3_hash pow log h0 ops1 = Ok h1 ->
     HyperLogLog.run mmh3_hash pow log h1 ops2 = Ok h2 ->
     length (HyperLogLog.registers h2) = length (HyperLogLog.registers h1) /\
     (forall n r, HyperLogLog.registers h1 !! n = Some r ->
        exists r', HyperLogLog.registers h2 !! n = Some r' /\ r <= r') /\
     (forall item, exists h3, HyperLogLog.add mmh3_hash h2 item = Ok h3)).
Proof.
  split.
  - intros M K bf0 ops1 ops2 Hinit. apply init_wf in Hinit.
    destruct (run_spec mmh3_hash ops1 bf0 Hinit) as (bf1 & Hrun1 & Hwf1 & _).
    destruct (run_spec mmh3_hash ops2 bf1 Hwf1)
      as (bf2 & Hrun2 & Hwf2 & Hsz & _ & Hbits).
    exists bf1, bf2. split; [done |]. split; [done |].
    destruct Hwf1 as (_ & Hlen1 & Hb1), Hwf2 as (_ & Hlen2 & Hb2).
    assert (Hlen : length (BloomFilter.bit_array bf2)
                   = length (BloomFilter.bit_array bf1)) by congruence.
    split; [done |]. intros n b Hn.
    destruct (lookup_lt_is_Some_2 (BloomFilter.bit_array bf2) n) as [b' Hn'].
    { rewrite Hlen. by eapply lookup_lt_Some. }
    exists b'. split; [done |].
    destruct (Hb1 n b Hn) as [-> | ->].
    + destruct (Hb2 n b' Hn') as [-> | ->]; split; lia.
    + rewrite (Hbits n Hn) in Hn'. injection Hn' as <-. split; lia.
  - intros pv h0 h1 h2 ops1 ops2 Hinit Hrun1 Hrun2.
    apply hll_init_wf in Hinit.
    destruct (hll_run_grows _ _ _ _ _ _ Hinit Hrun1) as [Hwf1 _].
    destruct (hll_run_grows _ _ _ _ _ _ Hwf1 Hrun2)
      as [Hwf2 (_ & Hm & _ & _ & Hregs)].
    split; [| split; [done |]].
    + destruct Hwf1 as (_ & _ & Hlen1), Hwf2 as (_ & _ & Hlen2). congruence.
    + intros item. destruct (hll_add_spec mmh3_hash h2 item Hwf2) as (old & _ & ->).
      by eexists.
Qed.

End Monotone.

(** ** Construction *)

Lemma all_upto_elim (P : Z -> Prop) (n : nat) :
  all_upto P n -> forall p, 0 <= p <= Z.of_nat n -> P p.
Proof.
  induction n as [| n IH]; simpl all_upto.
  - intros H0 p Hp. by replace p with 0 by lia.
  - intros [Hn Hrest] p Hp.
    destruct (Z.eq_dec p (Z.of_nat (S n))) as [-> | Hne]; [done |].
    apply IH; [done | lia].
Qed.

Lemma hll_init_ok (p : Z) (a c : float) :
  0 <= p ->
  HyperLogLog._get_alpha (2 ^ p) = Ok a ->
  int_truediv (5 * 2 ^ p) 2 = Ok c ->
  HyperLogLog.__init__ (PyInt p) =
    Ok (HyperLogLog.Build p (2 ^ p) (list_mul 0 (2 ^ p)) a c).
Proof.
  intros Hp Ha Hc. unfold HyperLogLog.__init__, lshift. simpl.
  destruct (Z.ltb_spec p 0); [lia |].
  rewrite bind_Ok, Z.shiftl_1_l, Ha, bind_Ok.
  unfold int_truediv in Hc. simpl in Hc. by injection Hc as <-.
Qed.

(** The constructor reads its argument through [isinstance] and its
    int value only. *)
Lemma hll_init_int_value (pv : pyval) :
  isinstance_int pv = true ->
  HyperLogLog.__init__ pv = HyperLogLog.__init__ (PyInt (int_value pv)).
Proof. destruct pv as [| b | z | s]; try discriminate; reflexivity. Qed.

(** Up to [p = 50] the two divisions of the constructor have a divisor
    that is not 0, each [p] being settled by running them. *)
Lemma hll_init_divisions (p : Z) :
  0 <= p <= 50 ->
  exists a c,
    HyperLogLog._get_alpha (2 ^ p) = Ok a /\ int_truediv (5 * 2 ^ p) 2 = Ok c.
Proof.
  revert p.
  apply (all_upto_elim
           (fun p => exists a c,
              HyperLogLog._get_alpha (2 ^ p) = Ok a /\
              int_truediv (5 * 2 ^ p) 2 = Ok c) 50).
  cbv [all_upto Z.of_nat Pos.of_succ_nat Pos.succ]. cbv beta.
  repeat match goal with |- _ /\ _ => split end;
    do 2 eexists; (split; [vm_compute; reflexivity |]); vm_compute; reflexivity.
Qed.

(** C3 (as amended). [BloomFilter(size, num_hashes)] raises [ValueError]
    whenever one of the two arguments is not a positive integer, and
    returns an instance otherwise.  [HyperLogLog(p)] has no check of its
    own: it raises [TypeError] when [p] is not an integer and
    [ValueError] when it is a negative integer, both from [1 << p], and
    for every integer [0 <= p <= 50] it returns an estimator of
    precision [p] with [2^p] registers, all 0; so it accepts [p = 0],
    which gives an estimator with one register.  A call that raises
    returns no instance. *)
Theorem construction_checks :
  (forall M K, ~ (positive_int M /\ positive_int K) ->
     BloomFilter.__init__ M K = Raise ValueError) /\
  (forall M K, positive_int M -> positive_int K ->
     exists bf, BloomFilter.__init__ M K = Ok bf) /\
  (forall pv, isinstance_int pv = false ->
     HyperLogLog.__init__ pv = Raise TypeError) /\
  (forall pv, isinstance_int pv = true -> int_value pv < 0 ->
     HyperLogLog.__init__ pv = Raise ValueError) /\
  (forall pv, isinstance_int pv = true -> 0 <= int_value pv <= 50 ->
     exists h, HyperLogLog.__init__ pv = Ok h /\
               HyperLogLog.p h = int_value pv /\
               HyperLogLog.m h = 2 ^ int_value pv /\
               HyperLogLog.registers h
                 = replicate (Z.to_nat (2 ^ int_value pv)) 0) /\
  (exists h, HyperLogLog.__init__ (PyInt 0) = Ok h /\
             HyperLogLog.m h = 1 /\ HyperLogLog.registers h = [0]).
Proof.
  split; [| split; [| split; [| split; [| split]]]].
  - intros M K Hnot. unfold BloomFilter.__init__, positive_int in *.
    destruct (isinstance_int M); simpl; [| done].
    destruct (Z.gtb_spec (int_value M) 0); simpl; [| done].
    destruct (isinstance_int K); simpl; [| done].
    destruct (Z.gtb_spec (int_value K) 0); simpl; [| done].
    destruct Hnot. repeat split; lia.
  - intros M K [HM HM0] [HK HK0]. unfold BloomFilter.__init__.
    rewrite HM, HK. simpl.
    destruct (Z.gtb_spec (int_value M) 0); [| lia].
    destruct (Z.gtb_spec (int_value K) 0); [| lia].
    by eexists.
  - intros pv Hpv. unfold HyperLogLog.__init__. by rewrite Hpv.
  - intros pv Hpv Hneg. unfold HyperLogLog.__init__, lshift. rewrite Hpv.
    by destruct (Z.ltb_spec (int_value pv) 0); [| lia].
  - intros pv Hpv Hp. rewrite (hll_init_int_value pv Hpv).
    destruct (hll_init_divisions _ Hp) as (a & c & Ha & Hc).
    eexists. split; [apply (hll_init_ok _ a c); [lia | done | done] |].
    by repeat split.
  - eexists. split; [| split].
    + apply hll_init_ok; [lia | vm_compute; reflexivity ..].
    + reflexivity.
    + reflexivity.
Qed.

(** ** HyperLogLog: the estimate *)

Lemma map_replicate {A B : Type} (f : A -> B) (n : nat) (x : A) :
  map f (replicate n x) = replicate n (f x).
Proof. induction n as [| n IH]; simpl; [done | by rewrite IH]. Qed.

Lemma fold_add_replicate (n : nat) (c a : float) :
  fold_left PrimFloat.add (replicate n c) a = Nat.iter n (fun a => (a + c)%float) a.
Proof.
  revert a. induction n as [| n IH]; intros a; simpl; [done |].
  rewrite IH. clear IH. induction n as [| n IH]; simpl; [done | by rewrite IH].
Qed.

Lemma sum_replicate_pos (q : positive) (c : float) :
  sum (replicate (Pos.to_nat q) c) = Pos.iter (fun a => (a + c)%float) 0%float q.
Proof. unfold sum. by rewrite fold_add_replicate, Pos2Nat.inj_iter. Qed.

Lemma count_replicate_zero (n : nat) : Py.count (replicate n 0) 0 = Z.of_nat n.
Proof.
  unfold Py.count. f_equal.
  induction n as [| n IH]; [done |].
  change (replicate (S n) 0) with (0 :: replicate n 0).
  rewrite filter_cons_True by done. simpl. by rewrite IH.
Qed.

Lemma params_agree_upto_60 : forall p, 0 <= p <= 60 -> params_agree p.
Proof.
  apply (all_upto_elim params_agree 60).
  cbv [all_upto Z.of_nat Pos.of_succ_nat Pos.succ].
  repeat match goal with |- _ /\ _ => split end;
    intros a c Ha Hc; vm_compute in Ha; vm_compute in Hc;
    injection Ha as <-; injection Hc as <-; split; vm_compute; reflexivity.
Qed.

(** *** The sum of ones in binary64

    [count] adds [m] times 1.0 on a new estimator.  The additions are
    exact as long as the sum is below [2^53]: adding 1.0 to the float of
    an int [k] gives the float of [k + 1].  This is proved on the
    specification of binary64 addition ([SFadd]), to which the primitive
    addition is tied by [add_spec]. *)

Lemma iter_pos_iter {A : Type} (f : A -> A) (p : positive) (x : A) :
  SpecFloat.iter_pos f p x = Pos.iter f x p.
Proof.
  revert x. induction p as [p IH | p IH |]; intros x; simpl; [| | done].
  - by rewrite !IH, <- !Pos.iter_swap.
  - by rewrite !IH.
Qed.

Lemma pos_shiftl_value (m : positive) (n : N) :
  Z.pos (Pos.shiftl m n) = Z.pos m * 2 ^ Z.of_N n.
Proof.
  destruct n as [| d]; unfold Pos.shiftl;
    [change (Z.of_N 0) with 0; rewrite Z.pow_0_r; lia |].
  change (Z.of_N (N.pos d)) with (Z.pos d).
  induction d as [| d IH] using Pos.peano_ind.
  - change (Pos.iter xO m 1) with (m~0)%positive. lia.
  - rewrite Pos.iter_succ. rewrite Pos2Z.inj_xO, IH.
    rewrite Pos2Z.inj_succ, Z.pow_succ_r by lia. lia.
Qed.

Lemma pos_shiftl_shiftl (m : positive) (a b : N) :
  Pos.shiftl (Pos.shiftl m a) b = Pos.shiftl m (a + b).
Proof.
  apply Pos2Z.inj. rewrite !pos_shiftl_value, N2Z.inj_add, Z.pow_add_r by lia. lia.
Qed.

Lemma digits_shiftl (m : positive) (n : N) :
  Z.pos (digits2_pos (Pos.shiftl m n)) = Z.pos (digits2_pos m) + Z.of_N n.
Proof.
  destruct n as [| d]; unfold Pos.shiftl;
    [change (Z.of_N 0) with 0; lia |].
  change (Z.of_N (N.pos d)) with (Z.pos d).
  induction d as [| d IH] using Pos.peano_ind.
  - change (Pos.iter xO m 1) with (m~0)%positive.
    change (digits2_pos m~0) with (Pos.succ (digits2_pos m)). lia.
  - rewrite Pos.iter_succ.
    change (digits2_pos (Pos.iter xO m d)~0)
      with (Pos.succ (digits2_pos (Pos.iter xO m d))).
    rewrite !Pos2Z.inj_succ, IH. lia.
Qed.

Lemma digits_bound (k : positive) (n : Z) :
  0 <= n -> Z.pos k < 2 ^ n -> 1 <= Z.pos (digits2_pos k) <= n.
Proof.
  intros Hn Hk. split; [lia |].
  assert (Hsize : digits2_pos k = Pos.size k) by (induction k as [k IH | k IH |]; cbn [digits2_pos Pos.size];
        [by f_equal .. | done]).
  rewrite Hsize. pose proof (Pos.size_le k) as Hle.
  apply Pos2Z.pos_le_pos in Hle. rewrite Pos2Z.inj_pow in Hle.
  change (Z.pos k~0) with (2 * Z.pos k) in Hle.
  destruct (Z.le_gt_cases (Z.pos (Pos.size k)) n) as [| Hgt]; [done |].
  assert (Hpow : 2 ^ Z.succ n <= 2 ^ Z.pos (Pos.size k))
    by (apply Z.pow_le_mono_r; lia).
  rewrite Z.pow_succ_r in Hpow by lia. lia.
Qed.

(** Shifting right what was shifted left loses nothing. *)
Lemma shr_exact (m : positive) (n e : Z) :
  0 <= n ->
  shr {| shr_m := Z.pos (Pos.shiftl m (Z.to_N n)); shr_r := false; shr_s := false |}
      e n
  = ({| shr_m := Z.pos m; shr_r := false; shr_s := false |}, e + n).
Proof.
  intros Hn. destruct n as [| d | d]; [| | lia].
  - simpl. by rewrite Z.add_0_r.
  - unfold shr. change (Z.to_N (Z.pos d)) with (N.pos d). unfold Pos.shiftl.
    f_equal. rewrite iter_pos_iter. clear Hn.
    induction d as [| d IH] using Pos.peano_ind; [done |].
    rewrite (Pos.iter_succ_r d _ shr_1), (Pos.iter_succ d _ xO m).
    exact IH.
Qed.

Lemma fexp_digits (d : Z) : 1 <= d -> fexp prec emax d = d - 53.
Proof. intros Hd. unfold fexp, emin, prec, emax. lia. Qed.

(** Rounding a mantissa of 53 bits that was shifted left by [n] gives
    the mantissa back, [n] higher in exponent. *)
Lemma round_exact (m : positive) (n e : Z) :
  0 <= n ->
  Z.pos (digits2_pos m) = 53 ->
  -1074 <= e + n <= 971 ->
  binary_round_aux prec emax false (Z.pos (Pos.shiftl m (Z.to_N n))) e loc_Exact
  = S754_finite false m (e + n).
Proof.
  intros Hn Hd He.
  assert (Hf : fexp prec emax (53 + (e + n)) = e + n)
    by (unfold fexp, emin, prec, emax; lia).
  unfold binary_round_aux, shr_fexp. simpl Zdigits2. simpl shr_record_of_loc.
  rewrite digits_shiftl, Hd, Z2N.id by done.
  replace (53 + n + e) with (53 + (e + n)) by lia. rewrite Hf.
  replace (e + n - e) with n by lia. rewrite shr_exact by done.
  simpl. rewrite Hd, Hf, Z.sub_diag. simpl.
  destruct (Z.leb_spec (e + n) (emax - prec)) as [| Hgt]; [done |].
  unfold emax, prec in Hgt. lia.
Qed.

Lemma shl_align_le (mx : positive) (ex ex' : Z) :
  ex' <= ex -> shl_align mx ex ex' = (Pos.shiftl mx (Z.to_N (ex - ex')), ex').
Proof.
  intros Hle. unfold shl_align.
  destruct (ex' - ex) as [| d | d] eqn:E; [| lia |].
  - assert (ex = ex') as -> by lia. by rewrite Z.sub_diag.
  - assert (ex - ex' = Z.pos d) as -> by lia. done.
Qed.

Lemma shl_align_ge (mx : positive) (ex ex' : Z) :
  ex <= ex' -> shl_align mx ex ex' = (mx, ex).
Proof.
  intros Hle. unfold shl_align. destruct (ex' - ex) as [| d | d] eqn:E; [done .. | lia].
Qed.

(** The binary64 number of a positive int below [2^53]: its mantissa is
    the int shifted to 53 bits. *)
Lemma normalize_pos (k : positive) :
  Z.pos k < 2 ^ 53 ->
  binary_normalize prec emax (Z.pos k) 0 false
  = S754_finite false (Pos.shiftl k (Z.to_N (53 - Z.pos (digits2_pos k))))
                (Z.pos (digits2_pos k) - 53).
Proof.
  intros Hk. pose proof (digits_bound k 53 ltac:(lia) Hk) as Hd.
  unfold binary_normalize, binary_round.
  rewrite Z.add_0_r, fexp_digits by lia.
  rewrite shl_align_le by lia.
  replace (0 - (Z.pos (digits2_pos k) - 53)) with (53 - Z.pos (digits2_pos k)) by lia.
  rewrite <- (Z.add_0_r (Z.pos (digits2_pos k) - 53)) at 2.
  apply (round_exact (Pos.shiftl k (Z.to_N (53 - Z.pos (digits2_pos k)))) 0);
    [lia | | lia].
  rewrite digits_shiftl, Z2N.id by lia. lia.
Qed.

Lemma normalize_pos_valid (k : positive) :
  Z.pos k < 2 ^ 53 ->
  valid_binary (binary_normalize prec emax (Z.pos k) 0 false) = true.
Proof.
  intros Hk. pose proof (digits_bound k 53 ltac:(lia) Hk) as Hd.
  rewrite normalize_pos by done.
  unfold SpecFloat.valid_binary, bounded, canonical_mantissa.
  rewrite digits_shiftl, Z2N.id by lia.
  replace (Z.pos (digits2_pos k) + (53 - Z.pos (digits2_pos k)) +
           (Z.pos (digits2_pos k) - 53)) with (Z.pos (digits2_pos k)) by lia.
  rewrite fexp_digits, Z.eqb_refl by lia.
  apply Z.leb_le. unfold emax, prec. lia.
Qed.

(** Adding 1 to the binary64 number of [k] gives that of [k + 1]. *)
Lemma SFadd_one (k : positive) :
  Z.pos k + 1 < 2 ^ 53 ->
  SFadd prec emax (binary_normalize prec emax (Z.pos k) 0 false)
                  (binary_normalize prec emax 1 0 false)
  = binary_normalize prec emax (Z.pos k + 1) 0 false.
Proof.
  intros Hk.
  pose proof (digits_bound k 53 ltac:(lia) ltac:(lia)) as Hd.
  pose proof (digits_bound (k + 1) 53 ltac:(lia) ltac:(lia)) as Hd'.
  change (Z.pos k + 1) with (Z.pos (k + 1)).
  rewrite (normalize_pos k), (normalize_pos (k + 1)) by lia.
  change (binary_normalize prec emax 1 0 false)
    with (S754_finite false 4503599627370496 (-52)).
  set (D := Z.pos (digits2_pos k)) in *.
  set (D' := Z.pos (digits2_pos (k + 1))) in *.
  unfold SFadd. rewrite Z.min_r by lia.
  rewrite shl_align_le by lia. rewrite (shl_align_ge _ (-52) (-52)) by lia.
  simpl fst. simpl cond_Zopp.
  rewrite pos_shiftl_shiftl.
  assert (Hsum : Z.pos (Pos.shiftl k (Z.to_N (53 - D) + Z.to_N (D - 53 - -52)))
                 + 4503599627370496
                 = Z.pos (Pos.shiftl (Pos.shiftl (k + 1) (Z.to_N (53 - D')))
                                     (Z.to_N (D' - 1)))).
  { rewrite pos_shiftl_shiftl, !pos_shiftl_value.
    rewrite !N2Z.inj_add, !Z2N.id by lia.
    replace (53 - D + (D - 53 - -52)) with 52 by lia.
    replace (53 - D' + (D' - 1)) with 52 by lia. lia. }
  rewrite Hsum. unfold binary_normalize, binary_round.
  rewrite !digits_shiftl, !Z2N.id by lia. fold D'.
  replace (D' + (53 - D') + (D' - 1) + -52) with D' by lia.
  rewrite fexp_digits by lia. rewrite shl_align_ge by lia.
  rewrite round_exact; [f_equal; lia | lia | | lia].
  rewrite digits_shiftl, Z2N.id by lia. fold D'. lia.
Qed.

Lemma float_of_int_succ (k : Z) :
  0 <= k -> k + 1 < 2 ^ 53 -> (float_of_int k + 1)%float = float_of_int (k + 1).
Proof.
  intros Hk Hlt. destruct k as [| q | q]; [reflexivity | | lia].
  apply Prim2SF_inj. rewrite FloatAxioms.add_spec. unfold float_of_int.
  rewrite !Prim2SF_SF2Prim by (apply normalize_pos_valid; lia).
  replace (Prim2SF 1) with (binary_normalize prec emax 1 0 false)
    by (vm_compute; reflexivity).
  by apply SFadd_one.
Qed.

Lemma sum_ones_from (n : nat) (j : Z) :
  0 <= j -> j + Z.of_nat n < 2 ^ 53 ->
  fold_left PrimFloat.add (replicate n 1%float) (float_of_int j)
  = float_of_int (j + Z.of_nat n).
Proof.
  revert j. induction n as [| n IH]; intros j Hj Hlt.
  - simpl. by rewrite Z.add_0_r.
  - change (replicate (S n) 1%float) with (1%float :: replicate n 1%float).
    simpl fold_left. rewrite float_of_int_succ by lia.
    rewrite IH by lia. f_equal. lia.
Qed.

Lemma iter_add_one (q : positive) :
  Z.pos q < 2 ^ 53 ->
  Pos.iter (fun a => (a + 1)%float) 0%float q = float_of_int (Z.pos q).
Proof.
  intros Hq. rewrite <- sum_replicate_pos. unfold sum.
  change 0%float with (float_of_int 0).
  rewrite sum_ones_from; rewrite ?positive_nat_Z; [done | lia | lia].
Qed.

Section HyperLogLogCount.

Import HyperLogLog.

Variable pow : float -> float -> float.
Variable log : float -> float.

(** C2. For every state of an estimator built with [0 <= p <= 50] (its
    ints then convert to floats exactly), whatever its registers hold,
    [count()] is the computation of the
    specification: with [Z] the sum of [2^(-register)] and
    [E = alpha * m^2 / Z], it returns [m * ln(m / V)] when
    [E <= 2.5 * m] and the number [V] of zero registers is positive, and
    [E] in every other case.  In particular it returns [E] as it is
    whenever [E] is above the threshold: there is no large-range
    correction. *)
Theorem count_follows_spec (pv : pyval) (h0 : t) (regs : list Z) :
  __init__ pv = Ok h0 ->
  int_value pv <= 50 ->
  count pow log (with_registers h0 regs)
    = count_spec pow log (with_registers h0 regs) /\
  forall E,
    truediv (alpha h0 * float_of_int (m h0 ^ 2))
            (sum (map (fun r => pow 2 (float_of_int (- r))) regs)) = Ok E ->
    (E <=? 2.5 * float_of_int (m h0))%float = false ->
    count pow log (with_registers h0 regs) = Ok E.
Proof.
  intros Hinit Hp50.
  apply hll_init_inv in Hinit as (_ & Hp0 & _ & Hm & _ & Ha & Hc).
  rewrite Hm in Ha, Hc.
  destruct (params_agree_upto_60 (int_value pv) ltac:(lia) _ _ Ha Hc)
    as [Hthr Hmm].
  rewrite <- Hm in Hthr, Hmm.
  assert (Hcount : forall V,
            (if V >? 0
             then ratio ← int_truediv (m h0) V;
                  l ← math_log log ratio; Ok (float_of_int (m h0) * l)%float
             else Ok 0%float) =
            (if V >? 0
             then l ← math_log log (float_of_int (m h0) / float_of_int V)%float;
                  Ok (float_of_int (m h0) * l)%float
             else Ok 0%float)).
  { intros V. destruct (Z.gtb_spec V 0) as [HV |]; [| done].
    unfold int_truediv. by destruct (Z.eqb_spec V 0); [lia |]. }
  assert (Heq : count pow log (with_registers h0 regs)
                = count_spec pow log (with_registers h0 regs)).
  { unfold count, count_spec. simpl. rewrite Hmm, Hthr.
    destruct (truediv _ _) as [E |]; [| done]. rewrite !bind_Ok.
    destruct (E <=? _)%float; [| done]. simpl.
    specialize (Hcount (Py.count regs 0)).
    by destruct (Py.count regs 0 >? 0). }
  split; [done |].
  intros E HE Hle. rewrite Heq. unfold count_spec. simpl.
  by rewrite HE, bind_Ok, Hle.
Qed.

Hypothesis pow_zero : pow 2 0 = 1%float.
Hypothesis log_one : log 1 = 0%float.

(** [count] on registers that are all 0, reduced to four computations
    on floats: the sum of [m] ones is not 0, the raw estimate that it
    gives is under the threshold, [m / m] is 1 and [m * 0] is 0. *)
Lemma count_all_zero (self : t) (q : positive) :
  m self = Z.pos q ->
  registers self = list_mul 0 (m self) ->
  (let Zs := Pos.iter (fun a => a + 1) 0 q in
   negb (Zs =? 0) &&
   (alpha self * float_of_int (m self) * float_of_int (m self) / Zs
      <=? small_range_correction self))%float = true ->
  (float_of_int (m self) / float_of_int (m self))%float = 1%float ->
  (float_of_int (m self) * 0)%float = 0%float ->
  count pow log self = Ok 0%float.
Proof.
  intros Hm Hregs Hsum Hratio Hzero. simpl in Hsum.
  apply andb_true_iff in Hsum as [Hnz Hle]. apply negb_true_iff in Hnz.
  unfold count. rewrite Hregs. unfold list_mul. rewrite Hm.
  change (Z.to_nat (Z.pos q)) with (Pos.to_nat q).
  rewrite map_replicate.
  change (float_of_int (- 0)) with 0%float. rewrite pow_zero.
  rewrite sum_replicate_pos. unfold truediv. rewrite Hnz, bind_Ok.
  rewrite <- Hm at 1 2. rewrite Hle.
  rewrite count_replicate_zero, positive_nat_Z.
  change (Z.pos q >? 0) with true. cbv iota.
  unfold int_truediv. change (Z.pos q =? 0) with false. cbv iota.
  rewrite bind_Ok, <- Hm, Hratio. unfold math_log.
  change (1 <=? 0)%float with false. cbv iota.
  by rewrite bind_Ok, log_one, Hzero.
Qed.

Lemma fresh_counts_zero_at (p : Z) (q : positive) (a c : float) :
  0 <= p -> 2 ^ p = Z.pos q ->
  _get_alpha (2 ^ p) = Ok a ->
  int_truediv (5 * 2 ^ p) 2 = Ok c ->
  (let Zs := Pos.iter (fun a => a + 1) 0 q in
   negb (Zs =? 0) &&
   (a * float_of_int (2 ^ p) * float_of_int (2 ^ p) / Zs <=? c))%float = true ->
  (float_of_int (2 ^ p) / float_of_int (2 ^ p))%float = 1%float ->
  (float_of_int (2 ^ p) * 0)%float = 0%float ->
  exists h,
    __init__ (PyInt p) = Ok h /\
    m h = 2 ^ p /\
    registers h = replicate (Z.to_nat (2 ^ p)) 0 /\
    count pow log h = Ok 0%float.
Proof.
  intros Hp Hq Ha Hc Hsum Hratio Hzero.
  exists (Build p (2 ^ p) (list_mul 0 (2 ^ p)) a c).
  split; [by apply hll_init_ok |]. split; [done |]. split; [done |].
  by apply (count_all_zero _ q).
Qed.

(** C7. For [0 <= p <= 50], which covers every estimator that fits in
    memory, [HyperLogLog(p)] returns an estimator with [m = 2^p]
    registers, all 0, and [count()] on it returns exactly 0 and raises
    nothing: the sum of the [m] ones is [m], the raw estimate is under
    the threshold, and the result is [m * log(m / m)]. *)
Theorem fresh_estimator_counts_zero (p : Z) :
  0 <= p <= 50 ->
  exists h,
    __init__ (PyInt p) = Ok h /\
    m h = 2 ^ p /\
    registers h = replicate (Z.to_nat (2 ^ p)) 0 /\
    count pow log h = Ok 0%float.
Proof.
  revert p.
  apply (all_upto_elim
           (fun p => exists h,
              __init__ (PyInt p) = Ok h /\ m h = 2 ^ p /\
              registers h = replicate (Z.to_nat (2 ^ p)) 0 /\
              count pow log h = Ok 0%float) 50).
  cbv [all_upto Z.of_nat Pos.of_succ_nat Pos.succ]. cbv beta.
  repeat match goal with |- _ /\ _ => split end;
    match goal with
    | |- exists h, __init__ (PyInt ?k) = _ /\ _ =>
        let q := eval vm_compute in (Z.to_pos (2 ^ k)) in
        eapply (fresh_counts_zero_at k q);
        [lia | reflexivity | vm_compute; reflexivity | vm_compute; reflexivity
        | cbv zeta; rewrite iter_add_one by reflexivity; vm_compute; reflexivity
        | vm_compute; reflexivity ..]
    end.
Qed.

End HyperLogLogCount.

(** * The properties on the scenarios *)

Lemma mmh3_reference_range (data : string) (seed : Z) :
  0 <= Mmh3.hash data seed < 2 ^ 32.
Proof.
  unfold Mmh3.hash, Mmh3.mask32.
  change 0xFFFFFFFF with (Z.ones 32). rewrite Z.land_ones by lia.
  by apply Z.mod_pos_bound.
Qed.

Lemma scenario_items_distinct : List.NoDup (map str scenario_items).
Proof.
  simpl. repeat (constructor; [simpl; intuition discriminate |]). constructor.
Qed.

Lemma invalid_item_is_ignored_witness :
  invalid_item PyNone /\
  BloomFilter.add Mmh3.hash scenario_filter PyNone = Ok scenario_filter /\
  BloomFilter.contains Mmh3.hash scenario_filter PyNone = Ok false.
Proof.
  split; [by left |].
  apply (invalid_item_is_ignored Mmh3.hash scenario_filter PyNone). by left.
Defined.

Lemma no_false_negatives_witness :
  BloomFilter.__init__ (PyInt 1000) (PyInt 3) = Ok scenario_filter0 /\
  "admin123" <> "" /\
  exists bf1 bf2 bf3,
    BloomFilter.run Mmh3.hash scenario_filter0
      [BloomFilter.Add (PyStr "password123")] = Ok bf1 /\
    BloomFilter.add Mmh3.hash bf1 (PyStr "admin123") = Ok bf2 /\
    BloomFilter.contains Mmh3.hash bf2 (PyStr "admin123") = Ok true /\
    BloomFilter.run Mmh3.hash bf2
      [BloomFilter.Add (PyStr "qwerty123"); BloomFilter.Contains (PyStr "");
       BloomFilter.Add PyNone] = Ok bf3 /\
    BloomFilter.contains Mmh3.hash bf3 (PyStr "admin123") = Ok true.
Proof.
  split; [reflexivity |]. split; [discriminate |].
  apply (no_false_negatives Mmh3.hash (PyInt 1000) (PyInt 3) scenario_filter0);
    [reflexivity | discriminate].
Defined.

Lemma classifier_distinct_items_witness :
  BloomFilter.__init__ (PyInt 1000) (PyInt 3) = Ok scenario_filter0 /\
  BloomFilter.run Mmh3.hash scenario_filter0 scenario_adds = Ok scenario_filter /\
  List.NoDup (map str scenario_items) /\
  exists d,
    check_password_uniqueness Mmh3.hash scenario_filter scenario_items = Ok d /\
    one_status_per_item Mmh3.hash scenario_filter scenario_items d.
Proof.
  split; [reflexivity |]. split; [vm_compute; reflexivity |].
  split; [exact scenario_items_distinct |].
  apply (classifier_distinct_items Mmh3.hash (PyInt 1000) (PyInt 3)
           scenario_filter0 scenario_filter scenario_adds scenario_items);
    [reflexivity | vm_compute; reflexivity | exact scenario_items_distinct].
Defined.

Lemma classifier_keyed_by_str_witness :
  BloomFilter.__init__ (PyInt 1000) (PyInt 3) = Ok scenario_filter0 /\
  BloomFilter.run Mmh3.hash scenario_filter0 scenario_adds = Ok scenario_filter /\
  exists d,
    check_password_uniqueness Mmh3.hash scenario_filter scenario_items_repeated
      = Ok d /\
    List.NoDup (dict_keys d) /\
    (length d <= length scenario_items_repeated)%nat.
Proof.
  split; [reflexivity |]. split; [vm_compute; reflexivity |].
  destruct (classifier_keyed_by_str Mmh3.hash (PyInt 1000) (PyInt 3)
              scenario_filter0 scenario_filter scenario_adds
              scenario_items_repeated)
    as [(d & Hd & Hnd & _ & _ & Hlen) _];
    [reflexivity | vm_compute; reflexivity |].
  exists d. split; [exact Hd |]. split; [exact Hnd | exact Hlen].
Defined.

(** What the classifier returns on the two scenarios. *)
Example classifier_on_scenario :
  check_password_uniqueness Mmh3.hash scenario_filter scenario_items =
    Ok [("password123", STATUS_USED); ("newpassword", STATUS_UNIQUE);
        ("admin123", STATUS_USED); ("guest", STATUS_UNIQUE);
        ("", STATUS_INVALID); ("None", STATUS_INVALID)] /\
  check_password_uniqueness Mmh3.hash scenario_filter scenario_items_repeated =
    Ok [("password123", STATUS_USED); ("newpassword", STATUS_UNIQUE);
        ("", STATUS_INVALID); ("None", STATUS_UNIQUE)].
Proof. split; vm_compute; reflexivity. Qed.

(** The claim C8 as it is stated fails on [None] followed by the string
    ["None"]: the two items share one entry, which holds the status of
    the string, so that [None] is not reported as invalid. *)
Lemma classifier_merges_none :
  exists d,
    BloomFilter.__init__ (PyInt 1000) (PyInt 3) = Ok scenario_filter0 /\
    check_password_uniqueness Mmh3.hash scenario_filter0 [PyNone; PyStr "None"]
      = Ok d /\
    invalid_item PyNone /\
    dict_get d (str PyNone) = Some STATUS_UNIQUE /\
    ~ one_status_per_item Mmh3.hash scenario_filter0 [PyNone; PyStr "None"] d.
Proof.
  exists [("None", STATUS_UNIQUE)].
  split; [reflexivity |]. split; [vm_compute; reflexivity |].
  split; [by left |]. split; [reflexivity |].
  intros [Hlen _]. discriminate Hlen.
Qed.

Lemma construction_checks_witness :
  BloomFilter.__init__ (PyInt 0) (PyInt 3) = Raise ValueError /\
  BloomFilter.__init__ (PyInt 1000) PyNone = Raise ValueError /\
  (exists bf, BloomFilter.__init__ (PyInt 1000) (PyInt 3) = Ok bf) /\
  HyperLogLog.__init__ (PyStr "14") = Raise TypeError /\
  HyperLogLog.__init__ (PyInt (-1)) = Raise ValueError /\
  (exists h, HyperLogLog.__init__ (PyInt 14) = Ok h /\
             HyperLogLog.m h = 2 ^ 14).
Proof.
  destruct construction_checks as (Hbad & Hgood & Htype & Hneg & Hret & _).
  split; [apply Hbad; intros [[_ H] _]; simpl in H; lia |].
  split; [apply Hbad; intros [_ [H _]]; discriminate H |].
  split; [apply Hgood; (split; [reflexivity | simpl; lia]) |].
  split; [apply Htype; reflexivity |].
  split; [apply Hneg; [reflexivity | simpl; lia] |].
  destruct (Hret (PyInt 14)) as (h & Hh & _ & Hm & _);
    [reflexivity | simpl; lia |].
  exists h. split; [exact Hh | exact Hm].
Defined.

(** The claim C3 as it is stated fails on [HyperLogLog(0)]: 0 is not a
    positive integer, and the constructor returns an estimator, on which
    [add] and [count] work. *)
Lemma estimator_accepts_precision_zero :
  ~ positive_int (PyInt 0) /\
  exists h h' c,
    HyperLogLog.__init__ (PyInt 0) = Ok h /\
    HyperLogLog.add Mmh3.hash h (PyStr "a") = Ok h' /\
    HyperLogLog.count Libm.pow Libm.log h' = Ok c.
Proof.
  split; [intros [_ H]; simpl in H; lia |].
  do 3 eexists. split; [vm_compute; reflexivity |].
  split; [vm_compute; reflexivity |]. vm_compute; reflexivity.
Qed.

Lemma add_rank_has_width_32_witness :
  HyperLogLog.__init__ (PyInt 14) = Ok scenario_estimator0 /\
  HyperLogLog.run Mmh3.hash Libm.pow Libm.log scenario_estimator0 scenario_calls
    = Ok scenario_estimator /\
  exists old h',
    HyperLogLog.add Mmh3.hash scenario_estimator (PyStr "172.16.5.9") = Ok h' /\
    HyperLogLog.registers h' =
      <[Z.to_nat (Z.land (Mmh3.hash "172.16.5.9" HyperLogLog.SEED) (2 ^ 14 - 1)) :=
          Z.max old
            (HyperLogLog._rho (Z.shiftr (Mmh3.hash "172.16.5.9" HyperLogLog.SEED) 14))]>
        (HyperLogLog.registers scenario_estimator).
Proof.
  split; [vm_compute; reflexivity |]. split; [vm_compute; reflexivity |].
  destruct (add_rank_has_width_32 Mmh3.hash Libm.pow Libm.log (PyInt 14)
              scenario_estimator0 scenario_estimator scenario_calls
              (PyStr "172.16.5.9"))
    as (old & _ & Hadd & _); [vm_compute; reflexivity .. |].
  exists old. eexists. split; [exact Hadd | reflexivity].
Defined.

(** The rank of the code against that of the specification.  At
    [p = 14], where the specification has ranks from 1 to 19, the code
    gives 32 for [w = 1] and for [w = 0], against 18 and 19.  On a new
    [HyperLogLog(4)], ["192.168.0.1"] has the hash 440752551, hence the
    register 7 and a [w] of 25 bits: the code writes 8 where the
    specification has [(32 - 4) - 25 + 1 = 4]. *)
Example rank_at_failing_inputs :
  HyperLogLog._rho 1 = 32 /\ HyperLogLog.rho_spec 14 1 = 18 /\
  HyperLogLog._rho 0 = 32 /\ HyperLogLog.rho_spec 14 0 = 19 /\
  Mmh3.hash "192.168.0.1" HyperLogLog.SEED = 440752551 /\
  Z.land 440752551 (2 ^ 4 - 1) = 7 /\
  Z.shiftr 440752551 4 = 27547034 /\
  bit_length 27547034 = 25 /\
  HyperLogLog.rho_spec 4 27547034 = 4 /\
  exists h,
    HyperLogLog.add Mmh3.hash scenario_estimator4 (PyStr "192.168.0.1") = Ok h /\
    HyperLogLog.registers h = <[7%nat := 8]> (replicate 16 0).
Proof.
  repeat (split; [vm_compute; reflexivity |]).
  eexists. split; [vm_compute; reflexivity | reflexivity].
Qed.

Lemma add_hashes_every_item_witness :
  (forall data seed, 0 <= Mmh3.hash data seed < 2 ^ 32) /\
  HyperLogLog.__init__ (PyInt 4) = Ok scenario_estimator4 /\
  HyperLogLog.run Mmh3.hash Libm.pow Libm.log scenario_estimator4 []
    = Ok scenario_estimator4 /\
  exists h',
    HyperLogLog.add Mmh3.hash scenario_estimator4 PyNone = Ok h' /\
    HyperLogLog.registers h' <> HyperLogLog.registers scenario_estimator4.
Proof.
  split; [exact mmh3_reference_range |].
  split; [vm_compute; reflexivity |]. split; [reflexivity |].
  destruct (add_hashes_every_item Mmh3.hash Libm.pow Libm.log
              mmh3_reference_range (PyInt 4) scenario_estimator4
              scenario_estimator4 [] PyNone)
    as (old & h' & _ & Hadd & _ & Hrho & Hchange & Hold);
    [vm_compute; reflexivity | reflexivity |].
  exists h'. split; [exact Hadd |].
  apply Hchange. rewrite (Hold eq_refl). lia.
Defined.

(** The claim C6 as it is stated fails on [add(None)]: [None] is hashed
    as the string ["None"], and on a new [HyperLogLog(4)] register 10
    goes from 0 to 6. *)
Lemma add_none_changes_a_register :
  invalid_item PyNone /\
  exists h',
    HyperLogLog.__init__ (PyInt 4) = Ok scenario_estimator4 /\
    HyperLogLog.registers scenario_estimator4 = replicate 16 0 /\
    HyperLogLog.add Mmh3.hash scenario_estimator4 PyNone = Ok h' /\
    HyperLogLog.registers h' = <[10%nat := 6]> (replicate 16 0) /\
    HyperLogLog.registers h' <> HyperLogLog.registers scenario_estimator4.
Proof.
  split; [by left |]. eexists.
  split; [vm_compute; reflexivity |]. split; [reflexivity |].
  split; [vm_compute; reflexivity |]. split; [reflexivity | discriminate].
Qed.

Lemma state_never_decreases_witness :
  (exists bf1 bf2,
     BloomFilter.run Mmh3.hash scenario_filter0 scenario_adds = Ok bf1 /\
     BloomFilter.run Mmh3.hash bf1 [BloomFilter.Add (PyStr "guest")] = Ok bf2 /\
     forall n, BloomFilter.bit_array bf1 !! n = Some 1 ->
               BloomFilter.bit_array bf2 !! n = Some 1) /\
  (forall n r,
     HyperLogLog.registers scenario_estimator0 !! n = Some r ->
     exists r', HyperLogLog.registers scenario_estimator !! n = Some r' /\ r <= r').
Proof.
  destruct (state_never_decreases Mmh3.hash Libm.pow Libm.log) as [Hbf Hhll].
  split.
  - destruct (Hbf (PyInt 1000) (PyInt 3) scenario_filter0 scenario_adds
                [BloomFilter.Add (PyStr "guest")] eq_refl)
      as (bf1 & bf2 & H1 & H2 & _ & Hbits).
    exists bf1, bf2. split; [exact H1 |]. split; [exact H2 |].
    intros n Hn. destruct (Hbits n 1 Hn) as (b' & Hb' & _ & Hone).
    rewrite Hb'. f_equal. apply Hone. reflexivity.
  - apply (Hhll (PyInt 14) scenario_estimator0 scenario_estimator0
             scenario_estimator [] scenario_calls);
      [vm_compute; reflexivity | reflexivity | vm_compute; reflexivity].
Defined.

Lemma count_follows_spec_witness :
  HyperLogLog.__init__ (PyInt 14) = Ok scenario_estimator0 /\
  int_value (PyInt 14) <= 50 /\
  HyperLogLog.count Libm.pow Libm.log
    (HyperLogLog.with_registers scenario_estimator0
       (HyperLogLog.registers scenario_estimator))
  = HyperLogLog.count_spec Libm.pow Libm.log
      (HyperLogLog.with_registers scenario_estimator0
         (HyperLogLog.registers scenario_estimator)).
Proof.
  split; [vm_compute; reflexivity |]. split; [simpl; lia |].
  destruct (count_follows_spec Libm.pow Libm.log (PyInt 14) scenario_estimator0
              (HyperLogLog.registers scenario_estimator)) as [H _];
    [vm_compute; reflexivity | simpl; lia | exact H].
Defined.

Lemma fresh_estimator_counts_zero_witness :
  Libm.pow 2 0 = 1%float /\ Libm.log 1 = 0%float /\ 0 <= 14 <= 50 /\
  exists h,
    HyperLogLog.__init__ (PyInt 14) = Ok h /\
    HyperLogLog.m h = 2 ^ 14 /\
    HyperLogLog.registers h = replicate (Z.to_nat (2 ^ 14)) 0 /\
    HyperLogLog.count Libm.pow Libm.log h = Ok 0%float.
Proof.
  split; [reflexivity |]. split; [reflexivity |]. split; [lia |].
  apply (fresh_estimator_counts_zero Libm.pow Libm.log); [reflexivity .. | lia].
Defined.

(** What [count] returns on the estimator of precision 4 after the
    integers below 1000, written as strings by [add], have been added:
    about 17 times their number, the ranks being 4 too high. *)
Example count_after_1000_items :
  exists h,
    HyperLogLog.run Mmh3.hash Libm.pow Libm.log scenario_estimator4
      (map (fun i => HyperLogLog.Add (PyInt i)) (range 1000)) = Ok h /\
    HyperLogLog.registers h
      = [12; 12; 12; 12; 11; 15; 9; 12; 10; 13; 14; 10; 12; 9; 10; 10] /\
    HyperLogLog.count Libm.pow Libm.log h = Ok 17264.627474006116%float.
Proof.
  eexists. split; [vm_compute; reflexivity |].
  split; [vm_compute; reflexivity |]. vm_compute; reflexivity.
Qed.


(** * More of the code *)

(** ** The bits of a filter are the positions of what was added *)

Section BloomFilterState.

Import BloomFilter.

Variable mmh3_hash : string -> Z -> Z.

Lemma length_set_bits (ns : list nat) (bits : list Z) :
  length (set_bits bits ns) = length bits.
Proof.
  revert bits. induction ns as [| a ns IH]; intros bits; [done |].
  unfold set_bits in *. simpl. by rewrite IH, length_insert.
Qed.

Lemma set_bits_notin (ns : list nat) (bits : list Z) (n : nat) :
  ~ In n ns -> set_bits bits ns !! n = bits !! n.
Proof.
  revert bits. induction ns as [| a ns IH]; intros bits Hn; [done |].
  unfold set_bits in *. simpl. rewrite IH by (intros H; apply Hn; by right).
  apply list_lookup_insert_ne. intros ->. apply Hn. by left.
Qed.

Lemma set_bits_in (ns : list nat) (bits : list Z) (n : nat) :
  In n ns -> (n < length bits)%nat -> set_bits bits ns !! n = Some 1.
Proof.
  revert bits. induction ns as [| a ns IH]; intros bits Hn Hlt; [done |].
  change (set_bits bits (a :: ns)) with (set_bits (<[a := 1]> bits) ns).
  destruct (in_dec Nat.eq_dec n ns) as [Hin | Hout].
  - apply IH; [done | by rewrite length_insert].
  - rewrite set_bits_notin by done. destruct Hn as [-> | Hn]; [| done].
    by apply list_lookup_insert_eq.
Qed.

Lemma set_bits_app (l1 l2 : list nat) (bits : list Z) :
  set_bits bits (l1 ++ l2)%list = set_bits (set_bits bits l1) l2.
Proof. unfold set_bits. apply foldl_app. Qed.

Lemma set_bits_wf (self : t) (ns : list nat) :
  wf self -> wf (with_bit_array self (set_bits (bit_array self) ns)).
Proof.
  intros (Hsz & Hlen & Hbits). repeat split; simpl; [done | |].
  - by rewrite length_set_bits.
  - intros n b Hb. destruct (in_dec Nat.eq_dec n ns) as [Hin | Hout].
    + rewrite set_bits_in in Hb; [injection Hb as <-; by right | done |].
      apply lookup_lt_Some in Hb. by rewrite length_set_bits in Hb.
    + rewrite set_bits_notin in Hb by done. by eapply Hbits.
Qed.

(** The loop of [add] sets the bits of its seeds, whatever they were. *)
Lemma add_loop_exact (data : string) (seeds : list Z) (self : t) :
  wf self ->
  add_loop mmh3_hash self data seeds =
    Ok (with_bit_array self
          (set_bits (bit_array self)
             (map (fun i => Z.to_nat (mmh3_hash data i mod size self)) seeds))).
Proof.
  revert self. induction seeds as [| i seeds IH]; intros self Hwf.
  - simpl. by rewrite with_bit_array_id.
  - pose proof (slot_lt mmh3_hash self data i Hwf) as Hlt.
    pose proof (set_bits_wf self [Z.to_nat (mmh3_hash data i mod size self)] Hwf)
      as Hwf1.
    destruct Hwf as (Hsz & Hlen & _).
    pose proof (Z.mod_pos_bound (mmh3_hash data i) (size self) Hsz) as Hrange.
    simpl. rewrite mod_positive, bind_Ok by done.
    rewrite setitem_in_range, bind_Ok by lia.
    change (<[Z.to_nat (mmh3_hash data i mod size self) := 1]> (bit_array self))
      with (set_bits (bit_array self)
              [Z.to_nat (mmh3_hash data i mod size self)]).
    rewrite (IH _ Hwf1). reflexivity.
Qed.

Lemma valid_string_guard (item : pyval) :
  negb (truthy item) || negb (isinstance_str item) =
  match valid_string item with Some _ => false | None => true end.
Proof.
  destruct item as [| b | z | s]; simpl; rewrite ?orb_true_r; try done.
  rewrite orb_false_r. by destruct (String.eqb s "").
Qed.

Lemma valid_string_Some (item : pyval) (s : string) :
  valid_string item = Some s <-> item = PyStr s /\ s <> "".
Proof.
  destruct item as [| b | z | s']; simpl; try (split; [done | by intros [? _]]).
  destruct (String.eqb_spec s' ""); split.
  - done.
  - intros [[= ->] H]. done.
  - intros [= ->]. done.
  - intros [[= ->] _]. done.
Qed.

(** [add] sets the bits of the positions of a non-empty string and leaves
    the filter as it is for any other item. *)
Lemma add_exact (self : t) (item : pyval) :
  wf self ->
  add mmh3_hash self item =
    Ok (with_bit_array self
          (set_bits (bit_array self)
             (match valid_string item with
              | Some s => bloom_slots mmh3_hash (size self) (num_hashes self) s
              | None => []
              end))).
Proof.
  intros Hwf. unfold add. rewrite valid_string_guard.
  destruct (valid_string item) as [s |] eqn:Hs.
  - apply valid_string_Some in Hs as [-> _]. by apply add_loop_exact.
  - simpl. by rewrite with_bit_array_id.
Qed.

(** The filter after a sequence of calls: the bits of all the strings
    added are set, on top of those of the start. *)
Lemma run_exact (ops : list op) (self : t) :
  wf self ->
  run mmh3_hash self ops =
    Ok (with_bit_array self
          (set_bits (bit_array self)
             (flat_map (bloom_slots mmh3_hash (size self) (num_hashes self))
                       (bloom_added ops)))).
Proof.
  revert self. induction ops as [| o ops IH]; intros self Hwf.
  - simpl. by rewrite with_bit_array_id.
  - destruct o as [item | item]; simpl.
    + rewrite add_exact, bind_Ok by done.
      rewrite IH by (by apply set_bits_wf). simpl.
      unfold bloom_added. simpl. fold (bloom_added ops).
      destruct (valid_string item) as [s |]; simpl; [| done].
      by rewrite set_bits_app.
    + destruct (contains_total mmh3_hash self item Hwf) as [b ->].
      rewrite bind_Ok. by apply IH.
Qed.

(** The loop of [contains] answers [True] exactly when the bits of all
    its seeds are 1. *)
Lemma contains_loop_iff (data : string) (seeds : list Z) (self : t) :
  wf self ->
  contains_loop mmh3_hash self data seeds = Ok true <->
  forall i, In i seeds ->
    bit_array self !! Z.to_nat (mmh3_hash data i mod size self) = Some 1.
Proof.
  intros Hwf. split; [| by apply contains_loop_true].
  induction seeds as [| i seeds IH]; [by intros _ i [] |].
  pose proof (slot_lt mmh3_hash self data i Hwf) as Hlt.
  destruct (lookup_lt_is_Some_2 _ _ Hlt) as [bit Hbit].
  destruct Hwf as (Hsz & Hlen & Hbits).
  pose proof (Z.mod_pos_bound (mmh3_hash data i) (size self) Hsz) as Hrange.
  simpl. rewrite mod_positive, bind_Ok by done.
  rewrite (getitem_in_range _ _ bit), bind_Ok by (done || lia).
  destruct (Z.eqb_spec bit 0) as [-> | Hnz]; [done |].
  intros Hrest i' [<- | Hin]; [| by apply IH].
  destruct (Hbits _ _ Hbit) as [-> | ->]; done.
Qed.

End BloomFilterState.

Section BloomFilterAnswers.

Import BloomFilter.

Variable mmh3_hash : string -> Z -> Z.

Lemma set_bits_same_positions (bits : list Z) (l1 l2 : list nat) :
  (forall n, In n l1 <-> In n l2) -> set_bits bits l1 = set_bits bits l2.
Proof.
  intros Hsame. apply list_eq. intros n.
  destruct (decide (n < length bits)%nat) as [Hlt | Hge].
  - destruct (in_dec Nat.eq_dec n l1) as [Hin | Hout].
    + rewrite !set_bits_in; try done. by apply Hsame.
    + rewrite !set_bits_notin; try done. by rewrite <- Hsame.
  - rewrite !lookup_ge_None_2; try done; rewrite length_set_bits; lia.
Qed.

Lemma bloom_added_valid (ops : list op) (s : string) :
  In s (bloom_added ops) -> s <> "" /\ In (Add (PyStr s)) ops.
Proof.
  intros H. apply list_elem_of_In, list_elem_of_omap in H as (o & Ho & Hs).
  destruct o as [item | item]; [| done].
  apply valid_string_Some in Hs as [-> Hne].
  split; [done | by apply list_elem_of_In].
Qed.

Lemma range_In (K i : Z) : In i (range K) <-> 0 <= i < K.
Proof.
  unfold range. rewrite in_map_iff. split.
  - intros (n & <- & Hn). apply in_seq in Hn. lia.
  - intros Hi. exists (Z.to_nat i). split; [lia |]. apply in_seq. lia.
Qed.

(** The filter that a sequence of calls leaves: the parameters of the
    constructor, and for bits those of the positions of the strings
    added on a ground of zeros. *)
Lemma built_exact (M K : pyval) (bf0 bf : t) (ops : list op) :
  __init__ M K = Ok bf0 ->
  run mmh3_hash bf0 ops = Ok bf ->
  bf = {| size := int_value M; num_hashes := int_value K;
          bit_array :=
            set_bits (replicate (Z.to_nat (int_value M)) 0)
              (flat_map (bloom_slots mmh3_hash (int_value M) (int_value K))
                        (bloom_added ops)) |}.
Proof.
  intros Hinit Hrun. pose proof (init_wf _ _ _ Hinit) as Hwf.
  apply init_inv in Hinit as (_ & _ & _ & _ & ->).
  rewrite run_exact in Hrun by done. by injection Hrun as <-.
Qed.

Lemma bloom_slots_lt (M K : Z) (s : string) (n : nat) :
  0 < M -> In n (bloom_slots mmh3_hash M K s) -> (n < Z.to_nat M)%nat.
Proof.
  intros HM Hn. apply in_map_iff in Hn as (i & <- & _).
  pose proof (Z.mod_pos_bound (mmh3_hash s i) M HM). lia.
Qed.

Lemma built_bit (M K : pyval) (bf0 bf : t) (ops : list op) (n : nat) :
  __init__ M K = Ok bf0 ->
  run mmh3_hash bf0 ops = Ok bf ->
  (n < length (bit_array bf))%nat ->
  bit_array bf !! n =
    Some (if in_dec Nat.eq_dec n
               (flat_map (bloom_slots mmh3_hash (size bf) (num_hashes bf))
                         (bloom_added ops))
          then 1 else 0).
Proof.
  intros Hinit Hrun. rewrite (built_exact _ _ _ _ _ Hinit Hrun). simpl.
  rewrite length_set_bits, length_replicate. intros Hn.
  destruct (in_dec _ _ _) as [Hin | Hout].
  - apply set_bits_in; [done | by rewrite length_replicate].
  - rewrite set_bits_notin by done. by apply lookup_replicate_2.
Qed.

(** X1. On a filter built by the constructor and taken through any
    calls, the size and the number of hashes are those given to the
    constructor, there are as many bits as the size, and each bit is 1 if
    it is a position [hash(s, i) % size], [i < num_hashes], of a
    non-empty string [s] given to [add], and 0 otherwise. *)
Theorem filter_bits_are_added_positions (M K : pyval) (bf0 bf : t)
    (ops : list op) :
  __init__ M K = Ok bf0 ->
  run mmh3_hash bf0 ops = Ok bf ->
  size bf = int_value M /\ num_hashes bf = int_value K /\
  length (bit_array bf) = Z.to_nat (int_value M) /\
  forall n, (n < length (bit_array bf))%nat ->
    (bit_array bf !! n = Some 1 /\
     exists s, In (Add (PyStr s)) ops /\ s <> "" /\
               In n (bloom_slots mmh3_hash (size bf) (num_hashes bf) s)) \/
    (bit_array bf !! n = Some 0 /\
     forall s, In (Add (PyStr s)) ops -> s <> "" ->
               ~ In n (bloom_slots mmh3_hash (size bf) (num_hashes bf) s)).
Proof.
  intros Hinit Hrun.
  pose proof (built_exact _ _ _ _ _ Hinit Hrun) as Hbf.
  split; [by rewrite Hbf |]. split; [by rewrite Hbf |].
  split; [rewrite Hbf; simpl; by rewrite length_set_bits, length_replicate |].
  intros n Hn. rewrite (built_bit _ _ _ _ _ _ Hinit Hrun Hn).
  destruct (in_dec _ _ _) as [Hin | Hout].
  - left. split; [done |]. apply in_flat_map in Hin as (s & Hs & Hslot).
    apply bloom_added_valid in Hs as [Hne Hadd]. by exists s.
  - right. split; [done |]. intros s Hadd Hne Hslot. apply Hout.
    apply in_flat_map. exists s. split; [| done].
    apply list_elem_of_In, list_elem_of_omap. exists (Add (PyStr s)).
    split; [by apply list_elem_of_In | by apply valid_string_Some].
Qed.

(** [contains] on a built filter, for a non-empty string: [True] exactly
    when each of its positions is a position of a string added. *)
Lemma built_contains (M K : pyval) (bf0 bf : t) (ops : list op) (y : string) :
  __init__ M K = Ok bf0 ->
  run mmh3_hash bf0 ops = Ok bf ->
  y <> "" ->
  contains mmh3_hash bf (PyStr y) = Ok true <->
  forall n, In n (bloom_slots mmh3_hash (size bf) (num_hashes bf) y) ->
    In n (flat_map (bloom_slots mmh3_hash (size bf) (num_hashes bf))
                   (bloom_added ops)).
Proof.
  intros Hinit Hrun Hy.
  pose proof (built_wf mmh3_hash _ _ _ _ _ Hinit Hrun) as Hwf.
  unfold contains. rewrite valid_item_guard by done.
  rewrite contains_loop_iff by done. simpl. split.
  - intros Hall n Hn. apply in_map_iff in Hn as (i & <- & Hi).
    specialize (Hall i Hi).
    rewrite (built_bit _ _ _ _ _ _ Hinit Hrun) in Hall
      by (by apply slot_lt).
    by destruct (in_dec _ _ _).
  - intros Hall i Hi.
    rewrite (built_bit _ _ _ _ _ _ Hinit Hrun) by (by apply slot_lt).
    destruct (in_dec _ _ _) as [| Hout]; [done |].
    destruct Hout. apply Hall. apply in_map_iff. by exists i.
Qed.

(** X2. On a filter built by the constructor and taken through any
    calls, [contains(y)] for a non-empty string [y] raises nothing, and
    it is [True] exactly when every position of [y] is a position of some
    non-empty string given to [add]: a false positive is an item whose
    positions are all covered by those of the items added. *)
Theorem contains_answers_by_positions (M K : pyval) (bf0 bf : t)
    (ops : list op) (y : string) :
  __init__ M K = Ok bf0 ->
  run mmh3_hash bf0 ops = Ok bf ->
  y <> "" ->
  exists b,
    contains mmh3_hash bf (PyStr y) = Ok b /\
    (b = true <->
     forall n, In n (bloom_slots mmh3_hash (size bf) (num_hashes bf) y) ->
       exists s, In (Add (PyStr s)) ops /\ s <> "" /\
                 In n (bloom_slots mmh3_hash (size bf) (num_hashes bf) s)).
Proof.
  intros Hinit Hrun Hy.
  pose proof (built_wf mmh3_hash _ _ _ _ _ Hinit Hrun) as Hwf.
  destruct (contains_total mmh3_hash bf (PyStr y) Hwf) as [b Hb].
  exists b. split; [done |].
  pose proof (built_contains _ _ _ _ _ y Hinit Hrun Hy) as Hiff.
  rewrite Hb in Hiff. split.
  - intros -> n Hn. destruct Hiff as [Hiff _].
    specialize (Hiff eq_refl n Hn).
    apply in_flat_map in Hiff as (s & Hs & Hslot).
    apply bloom_added_valid in Hs as [Hne Hadd]. by exists s.
  - intros Hall. destruct Hiff as [_ Hiff].
    assert (Ok b = Ok true) as [= ->]; [| done].
    apply Hiff. intros n Hn. destruct (Hall n Hn) as (s & Hadd & Hne & Hslot).
    apply in_flat_map. exists s. split; [| done].
    apply list_elem_of_In, list_elem_of_omap. exists (Add (PyStr s)).
    split; [by apply list_elem_of_In | by apply valid_string_Some].
Qed.

(** [contains] on the filter that the constructor returns. *)
Lemma new_filter_contains (M K : pyval) (bf0 : t) (item : pyval) :
  __init__ M K = Ok bf0 -> contains mmh3_hash bf0 item = Ok false.
Proof.
  intros Hinit.
  destruct (valid_string item) as [y |] eqn:Hy.
  - apply valid_string_Some in Hy as [-> Hy].
    pose proof (init_wf _ _ _ Hinit) as Hwf.
    destruct (contains_total mmh3_hash bf0 (PyStr y) Hwf) as [[|] Hb]; [| done].
    pose proof (proj1 (built_contains M K bf0 bf0 [] y Hinit eq_refl Hy) Hb)
      as Hall.
    apply init_inv in Hinit as (_ & _ & _ & HK & ->). simpl in Hall.
    destruct (Hall (Z.to_nat (mmh3_hash y 0 mod int_value M))).
    apply in_map_iff. exists 0. split; [done |]. apply range_In. lia.
  - unfold contains. rewrite valid_string_guard. by rewrite Hy.
Qed.

(** X3. The filter that the constructor returns contains nothing:
    [contains] is [False] for every item. *)
Theorem new_filter_contains_nothing (M K : pyval) (bf0 : t) (item : pyval) :
  __init__ M K = Ok bf0 ->
  contains mmh3_hash bf0 item = Ok false.
Proof. apply new_filter_contains. Qed.

(** X4. The filter depends only on the set of non-empty strings given to
    [add]: two sequences of calls that add the same strings, in any
    order and any number of times, and make any [contains] calls, leave
    the same filter. *)
Theorem filter_depends_on_added_set (M K : pyval) (bf0 bf1 bf2 : t)
    (ops1 ops2 : list op) :
  __init__ M K = Ok bf0 ->
  run mmh3_hash bf0 ops1 = Ok bf1 ->
  run mmh3_hash bf0 ops2 = Ok bf2 ->
  (forall s, s <> "" -> In (Add (PyStr s)) ops1 <-> In (Add (PyStr s)) ops2) ->
  bf1 = bf2.
Proof.
  intros Hinit Hrun1 Hrun2 Hsame.
  rewrite (built_exact _ _ _ _ _ Hinit Hrun1), (built_exact _ _ _ _ _ Hinit Hrun2).
  f_equal. apply set_bits_same_positions. intros n.
  assert (Hadded : forall opsa opsb,
            (forall s, s <> "" -> In (Add (PyStr s)) opsa -> In (Add (PyStr s)) opsb) ->
            forall s, In s (bloom_added opsa) -> In s (bloom_added opsb)).
  { intros opsa opsb Hab s Hs. apply bloom_added_valid in Hs as [Hne Hadd].
    apply list_elem_of_In, list_elem_of_omap. exists (Add (PyStr s)).
    split; [apply list_elem_of_In; by apply Hab | by apply valid_string_Some]. }
  rewrite !in_flat_map.
  split; intros (s & Hs & Hn); exists s; (split; [| done]);
    revert Hs; apply Hadded; intros s' Hs'; by apply Hsame.
Qed.

(** X5. Once [contains(item)] is [True] it stays [True]: on a filter
    built by the constructor and taken through any calls, a [True] answer
    is never lost by further calls, whether the item was added or is a
    false positive. *)
Theorem contains_stays_true (M K : pyval) (bf0 bf1 bf2 : t)
    (ops1 ops2 : list op) (item : pyval) :
  __init__ M K = Ok bf0 ->
  run mmh3_hash bf0 ops1 = Ok bf1 ->
  contains mmh3_hash bf1 item = Ok true ->
  run mmh3_hash bf1 ops2 = Ok bf2 ->
  contains mmh3_hash bf2 item = Ok true.
Proof.
  intros Hinit Hrun1 Htrue Hrun2.
  pose proof (built_wf mmh3_hash _ _ _ _ _ Hinit Hrun1) as Hwf1.
  destruct (run_spec mmh3_hash ops2 bf1 Hwf1) as (bf & Hrun & Hwf2 & Hs & Hk & Hg).
  rewrite Hrun2 in Hrun. injection Hrun as <-.
  unfold contains in *.
  destruct (negb (truthy item) || negb (isinstance_str item)); [done |].
  pose proof (proj1 (contains_loop_iff mmh3_hash _ _ _ Hwf1) Htrue) as Hall.
  apply contains_loop_true; [done |].
  intros i Hi. rewrite Hs. apply Hg, Hall. by rewrite <- Hk.
Qed.

End BloomFilterAnswers.

(** ** The classifier after the filter *)

Section ClassifierAnswers.

Import BloomFilter.

Variable mmh3_hash : string -> Z -> Z.

Lemma last_binding_In (k v : string) (kvs : list (string * string)) :
  last_binding k kvs = Some v -> In (k, v) kvs.
Proof.
  induction kvs as [| [k0 v0] kvs IH]; [done |]. simpl.
  destruct (last_binding k kvs) as [v' |].
  - intros [= ->]. right. by apply IH.
  - destruct (String.eqb_spec k0 k) as [-> | _]; [| done].
    intros [= ->]. by left.
Qed.

Lemma last_with_key_In (k : string) (items : list pyval) (item : pyval) :
  last_with_key k items = Some item -> In item items /\ str item = k.
Proof.
  induction items as [| it items IH]; [done |]. simpl.
  destruct (last_with_key k items) as [it' |].
  - intros [= ->]. destruct (IH eq_refl). split; [by right | done].
  - destruct (String.eqb_spec (str it) k) as [Hk | _]; [| done].
    intros [= ->]. split; [by left | done].
Qed.

Lemma last_with_key_exists (k : string) (items : list pyval) (item : pyval) :
  In item items -> str item = k -> exists item', last_with_key k items = Some item'.
Proof.
  induction items as [| it items IH]; [done |]. simpl.
  intros Hin Hk. destruct (last_with_key k items) as [it' |]; [by eexists |].
  destruct Hin as [-> | Hin]; [| by destruct (IH Hin Hk)].
  rewrite Hk, String.eqb_refl. by eexists.
Qed.

(** A string that was added is contained. *)
Lemma added_is_contained (M K : pyval) (bf0 bf : t) (ops : list op) (s : string) :
  __init__ M K = Ok bf0 ->
  run mmh3_hash bf0 ops = Ok bf ->
  In (Add (PyStr s)) ops -> s <> "" ->
  contains mmh3_hash bf (PyStr s) = Ok true.
Proof.
  intros Hinit Hrun Hadd Hs.
  apply (built_contains mmh3_hash M K bf0 bf ops s Hinit Hrun Hs).
  intros n Hn. apply in_flat_map. exists s. split; [| done].
  apply list_elem_of_In, list_elem_of_omap. exists (Add (PyStr s)).
  split; [by apply list_elem_of_In | by apply valid_string_Some].
Qed.

Lemma statuses_differ :
  STATUS_USED <> STATUS_INVALID /\ STATUS_USED <> STATUS_UNIQUE /\
  STATUS_INVALID <> STATUS_UNIQUE.
Proof. repeat split; discriminate. Qed.

(** X6. A password that was added is reported as used: on a filter built
    by the constructor and taken through any calls, if the non-empty
    string [s] was given to [add], then for any candidates among which
    [s] is and no other item has the string form [s], the classifier
    raises nothing and its result maps [s] to the status
    "already used". *)
Theorem added_password_is_reported_used (M K : pyval) (bf0 bf : t)
    (ops : list op) (items : list pyval) (s : string) :
  __init__ M K = Ok bf0 ->
  run mmh3_hash bf0 ops = Ok bf ->
  In (Add (PyStr s)) ops -> s <> "" ->
  In (PyStr s) items ->
  (forall item, In item items -> str item = s -> item = PyStr s) ->
  exists d,
    check_password_uniqueness mmh3_hash bf items = Ok d /\
    dict_get d s = Some STATUS_USED.
Proof.
  intros Hinit Hrun Hadd Hs Hin Honly.
  pose proof (built_wf mmh3_hash _ _ _ _ _ Hinit Hrun) as Hwf.
  destruct (check_loop_spec mmh3_hash bf items [] Hwf) as (kvs & Hkvs & Hcheck).
  exists (dict_update [] kvs). split; [done |].
  rewrite dict_get_update.
  destruct (last_with_key_exists s items (PyStr s) Hin eq_refl) as [item Hlast].
  destruct (last_with_key_In _ _ _ Hlast) as [Hitem Hstr].
  rewrite (Honly item Hitem Hstr) in Hlast.
  pose proof (entries_last mmh3_hash bf items kvs s Hkvs) as Hlastb.
  rewrite Hlast in Hlastb. destruct Hlastb as (st & -> & Hst).
  pose proof (added_is_contained _ _ _ _ _ _ Hinit Hrun Hadd Hs) as Htrue.
  destruct Hst as [[Hinv _] | [(_ & _ & ->) | (_ & Hfalse & _)]].
  - destruct Hinv as [H | [H | H]]; [done | by injection H | by destruct (H s)].
  - done.
  - congruence.
Qed.

(** X7. On the filter that the constructor returns, the classifier
    reports no candidate as used: it raises nothing and every status of
    its result is the invalid one or the unique one. *)
Theorem new_filter_reports_nothing_used (M K : pyval) (bf0 : t)
    (items : list pyval) :
  __init__ M K = Ok bf0 ->
  exists d,
    check_password_uniqueness mmh3_hash bf0 items = Ok d /\
    forall k st, dict_get d k = Some st ->
                 st = STATUS_INVALID \/ st = STATUS_UNIQUE.
Proof.
  intros Hinit. pose proof (init_wf _ _ _ Hinit) as Hwf.
  destruct (check_loop_spec mmh3_hash bf0 items [] Hwf) as (kvs & Hkvs & Hcheck).
  exists (dict_update [] kvs). split; [done |].
  intros k st. rewrite dict_get_update.
  destruct (last_binding k kvs) as [v |] eqn:Hv; [| done].
  intros [= ->]. apply last_binding_In in Hv.
  apply list_elem_of_In, list_elem_of_lookup in Hv as [i Hi].
  destruct (Forall2_lookup_r _ _ _ _ _ Hkvs Hi) as (item & _ & _ & Hst).
  simpl in Hst.
  destruct Hst as [[_ ->] | [(_ & Htrue & _) | (_ & _ & ->)]];
    [by left | | by right].
  rewrite (new_filter_contains mmh3_hash _ _ _ item Hinit) in Htrue. done.
Qed.

End ClassifierAnswers.

Section DictOrder.

Implicit Types (d : dict) (k v : string) (kvs : list (string * string)).

(** The boolean test that [k] is not a key of the list [ks]. *)
Local Abbreviation absent_from ks :=
  (fun k => negb (existsb (String.eqb k) ks)).

Lemma absent_from_spec (ks : list string) k :
  absent_from ks k = true <-> ~ In k ks.
Proof.
  rewrite negb_true_iff. split.
  - intros Hf Hin. assert (existsb (String.eqb k) ks = true); [| congruence].
    apply existsb_exists. exists k. split; [done | apply String.eqb_refl].
  - intros Hout. destruct (existsb (String.eqb k) ks) eqn:E; [| done].
    apply existsb_exists in E as (k' & Hin & Heq).
    apply String.eqb_eq in Heq. by subst.
Qed.

Lemma filter_ext_In {A : Type} (f g : A -> bool) (l : list A) :
  (forall x, In x l -> f x = g x) -> List.filter f l = List.filter g l.
Proof.
  induction l as [| x l IH]; intros H; [done |]. simpl.
  rewrite (H x) by (by left). rewrite IH; [done |].
  intros y Hy. apply H. by right.
Qed.

Lemma filter_filter {A : Type} (f g : A -> bool) (l : list A) :
  List.filter f (List.filter g l) = List.filter (fun x => g x && f x) l.
Proof.
  induction l as [| x l IH]; [done |]. simpl.
  destruct (g x); simpl; [| done]. destruct (f x); by rewrite IH.
Qed.

(** The keys after a run of assignments: those of the start, then the
    new ones in the order of their first assignment. *)
Lemma dict_update_keys kvs d :
  dict_keys (dict_update d kvs) =
  (dict_keys d ++
   List.filter (absent_from (dict_keys d)) (first_occurrences (map fst kvs)))%list.
Proof.
  revert d. induction kvs as [| [k0 v0] kvs IH]; intros d.
  - simpl. by rewrite app_nil_r.
  - change (dict_update d ((k0, v0) :: kvs))
      with (dict_update (dict_set d k0 v0) kvs).
    rewrite IH. simpl map. simpl first_occurrences. simpl List.filter.
    destruct (in_dec string_dec k0 (dict_keys d)) as [Hin | Hout].
    + rewrite dict_set_present by done.
      assert (Habs : absent_from (dict_keys d) k0 = false).
      { apply not_true_iff_false. rewrite absent_from_spec. tauto. }
      rewrite Habs.
      f_equal. rewrite filter_filter. apply filter_ext_In. intros k _.
      destruct (String.eqb_spec k0 k) as [<- | Hne]; simpl; [| done].
      by rewrite Habs.
    + rewrite dict_set_fresh by done.
      assert (absent_from (dict_keys d) k0 = true) as ->
        by (by apply absent_from_spec).
      unfold dict_keys at 1 2. rewrite map_app. simpl.
      rewrite <- app_assoc. simpl. f_equal. f_equal.
      rewrite filter_filter. apply filter_ext_In. intros k _.
      fold (dict_keys d). rewrite existsb_app. simpl. rewrite orb_false_r.
      rewrite negb_orb, andb_comm. f_equal. f_equal.
      destruct (String.eqb_spec k k0), (String.eqb_spec k0 k); congruence.
Qed.

End DictOrder.

Section ClassifierOrder.

Import BloomFilter.

Variable mmh3_hash : string -> Z -> Z.

(** X8. The keys of the result of the classifier are the string forms
    [str(item)] of the candidates in the order of their first
    occurrence, each once: a repeated candidate keeps the place of its
    first occurrence. *)
Theorem classifier_keys_in_first_occurrence_order (M K : pyval) (bf0 bf : t)
    (ops : list op) (items : list pyval) :
  __init__ M K = Ok bf0 ->
  run mmh3_hash bf0 ops = Ok bf ->
  exists d,
    check_password_uniqueness mmh3_hash bf items = Ok d /\
    dict_keys d = first_occurrences (map str items).
Proof.
  intros Hinit Hrun.
  pose proof (built_wf mmh3_hash _ _ _ _ _ Hinit Hrun) as Hwf.
  destruct (check_loop_spec mmh3_hash bf items [] Hwf) as (kvs & Hkvs & Hcheck).
  exists (dict_update [] kvs). split; [done |].
  rewrite dict_update_keys, (entries_keys _ _ _ _ Hkvs). simpl.
  induction (first_occurrences (map str items)) as [| k ks IH]; [done |].
  simpl. by rewrite IH.
Qed.

End ClassifierOrder.

(** ** The registers of an estimator are the highest ranks of what was added *)

Section HyperLogLogState.

Import HyperLogLog.

Variable mmh3_hash : string -> Z -> Z.
Variable pow : float -> float -> float.
Variable log : float -> float.

Lemma max_rank_nonneg (p : Z) (n : nat) (items : list pyval) :
  0 <= max_rank mmh3_hash p n items.
Proof.
  induction items as [| item items IH]; simpl; [lia |].
  destruct (Nat.eqb _ _); lia.
Qed.

(** The highest rank is the least bound, from 0 on, of the ranks of the
    items of the register. *)
Lemma max_rank_le (p : Z) (n : nat) (items : list pyval) (z : Z) :
  max_rank mmh3_hash p n items <= z <->
  0 <= z /\
  forall item, In item items -> hll_index mmh3_hash p item = n ->
               hll_rank mmh3_hash p item <= z.
Proof.
  induction items as [| item items IH]; simpl.
  - split; [intros H; split; [lia | by intros ? []] | lia].
  - destruct (Nat.eqb_spec (hll_index mmh3_hash p item) n) as [Hn | Hn].
    + rewrite Z.max_lub_iff, IH. split.
      * intros (Hr & H0 & Hall). split; [done |].
        intros item' [<- | Hin] Hidx; [done | by apply Hall].
      * intros (H0 & Hall). split; [apply Hall; [by left | done] |].
        split; [done |]. intros item' Hin. apply Hall. by right.
    + rewrite IH. split; intros (H0 & Hall); (split; [done |]).
      * intros item' [<- | Hin] Hidx; [done | by apply Hall].
      * intros item' Hin. apply Hall. by right.
Qed.

(** It is 0 or the rank of one of these items. *)
Lemma max_rank_attained (p : Z) (n : nat) (items : list pyval) :
  max_rank mmh3_hash p n items = 0 \/
  exists item, In item items /\ hll_index mmh3_hash p item = n /\
               max_rank mmh3_hash p n items = hll_rank mmh3_hash p item.
Proof.
  induction items as [| item items IH]; simpl; [by left |].
  destruct (Nat.eqb_spec (hll_index mmh3_hash p item) n) as [Hn | Hn].
  - destruct (Z.max_spec (hll_rank mmh3_hash p item) (max_rank mmh3_hash p n items))
      as [[_ ->] | [_ ->]].
    + destruct IH as [H0 | (item' & Hin & Hidx & Heq)]; [by left |].
      right. exists item'. split; [by right | done].
    + right. exists item. split; [by left | done].
  - destruct IH as [H0 | (item' & Hin & Hidx & Heq)]; [by left |].
    right. exists item'. split; [by right | done].
Qed.

(** The registers after a sequence of calls, from those of the start. *)
Lemma hll_run_registers (ops : list op) (h0 h : t) :
  wf h0 ->
  (forall n r, registers h0 !! n = Some r -> 0 <= r) ->
  run mmh3_hash pow log h0 ops = Ok h ->
  forall n r0, registers h0 !! n = Some r0 ->
    registers h !! n =
      Some (Z.max r0 (max_rank mmh3_hash (p h0) n (hll_added ops))).
Proof.
  revert h0. induction ops as [| o ops IH]; intros h0 Hwf Hpos Hrun n r0 Hn.
  - simpl in Hrun. injection Hrun as <-. simpl.
    rewrite Hn. f_equal. specialize (Hpos n r0 Hn). lia.
  - destruct o as [item |]; simpl in Hrun.
    + destruct (hll_add_spec mmh3_hash h0 item Hwf) as (old & Hold & Hadd).
      rewrite Hadd, bind_Ok in Hrun.
      destruct (hll_add_grows mmh3_hash _ _ _ Hwf Hadd) as [Hwf1 _].
      destruct Hwf as (Hp & Hm & Hlen).
      set (j := Z.to_nat (Z.land (mmh3_hash (str item) SEED) (m h0 - 1))) in *.
      assert (Hj : hll_index mmh3_hash (p h0) item = j).
      { unfold hll_index, j. by rewrite Hm. }
      unfold hll_added. simpl. fold (hll_added ops). rewrite Hj.
      assert (Hpos1 : forall n r,
                <[j := Z.max old (_rho (Z.shiftr (mmh3_hash (str item) SEED) (p h0)))]>
                  (registers h0) !! n = Some r -> 0 <= r).
      { intros n' r'. destruct (decide (n' = j)) as [-> | Hne].
        - rewrite list_lookup_insert_eq by (by eapply lookup_lt_Some).
          intros [= <-]. specialize (Hpos j old Hold). lia.
        - rewrite list_lookup_insert_ne by done. apply Hpos. }
      destruct (Nat.eqb_spec j n) as [<- | Hne].
      * rewrite (IH _ Hwf1 Hpos1 Hrun j
                   (Z.max old (_rho (Z.shiftr (mmh3_hash (str item) SEED) (p h0))))).
        -- simpl. f_equal. rewrite Hold in Hn. injection Hn as ->.
           unfold hll_rank. exact (eq_sym (Z.max_assoc _ _ _)).
        -- simpl. by rewrite list_lookup_insert_eq by (by eapply lookup_lt_Some).
      * rewrite (IH _ Hwf1 Hpos1 Hrun n r0); [done |].
        simpl. by rewrite list_lookup_insert_ne.
    + destruct (count pow log h0); [| done]. rewrite bind_Ok in Hrun.
      by apply IH.
Qed.

(** The estimator that a sequence of calls leaves. *)
Lemma hll_built_exact (pv : pyval) (h0 h : t) (ops : list op) :
  __init__ pv = Ok h0 ->
  run mmh3_hash pow log h0 ops = Ok h ->
  h = with_registers h0 (registers h) /\
  length (registers h) = Z.to_nat (2 ^ int_value pv) /\
  forall n, (n < length (registers h))%nat ->
    registers h !! n = Some (max_rank mmh3_hash (int_value pv) n (hll_added ops)).
Proof.
  intros Hinit Hrun. pose proof (hll_init_wf _ _ Hinit) as Hwf0.
  destruct (hll_run_grows mmh3_hash pow log _ _ _ Hwf0 Hrun)
    as [(_ & _ & Hlen) (Hp & Hm & Ha & Hc & _)].
  apply hll_init_inv in Hinit as (_ & _ & Hp0 & Hm0 & Hregs & _).
  split; [| split].
  - destruct h, h0. simpl in *. by subst.
  - rewrite Hlen, Hm. by rewrite Hm0.
  - intros n Hn. rewrite <- Hp0.
    rewrite (hll_run_registers ops h0 h Hwf0) with (r0 := 0); try done.
    + f_equal. pose proof (max_rank_nonneg (p h0) n (hll_added ops)). lia.
    + intros n' r. rewrite Hregs. intros H. apply lookup_replicate in H. lia.
    + rewrite Hregs. apply lookup_replicate_2.
      rewrite Hlen, Hm in Hn. done.
Qed.

(** X9. On an estimator built by the constructor and taken through any
    calls that return, there are [2^p] registers and each register holds
    the highest [_rho(hash >> p)] among the items given to [add] whose
    hash selects it, and 0 when no item selects it; the other attributes
    are those of the constructor. *)
Theorem registers_are_highest_ranks (pv : pyval) (h0 h : t) (ops : list op) :
  __init__ pv = Ok h0 ->
  run mmh3_hash pow log h0 ops = Ok h ->
  h = with_registers h0 (registers h) /\
  length (registers h) = Z.to_nat (2 ^ int_value pv) /\
  forall n, (n < length (registers h))%nat ->
    exists r,
      registers h !! n = Some r /\ 0 <= r /\
      (forall item, In (Add item) ops ->
         hll_index mmh3_hash (int_value pv) item = n ->
         hll_rank mmh3_hash (int_value pv) item <= r) /\
      (r = 0 \/
       exists item, In (Add item) ops /\
         hll_index mmh3_hash (int_value pv) item = n /\
         r = hll_rank mmh3_hash (int_value pv) item).
Proof.
  intros Hinit Hrun.
  destruct (hll_built_exact _ _ _ _ Hinit Hrun) as (Hh & Hlen & Hregs).
  split; [done |]. split; [done |]. intros n Hn.
  assert (Hadded : forall item, In item (hll_added ops) <-> In (Add item) ops).
  { intros item. rewrite <- !list_elem_of_In. unfold hll_added.
    rewrite list_elem_of_omap. split.
    - intros ([item' |] & Ho & [= ->]). done.
    - intros H. by exists (Add item). }
  eexists. split; [by apply Hregs |].
  split; [apply max_rank_nonneg |]. split.
  - intros item Hin Hidx.
    apply (proj1 (max_rank_le (int_value pv) n (hll_added ops) _) (Z.le_refl _));
      [by apply Hadded | done].
  - destruct (max_rank_attained (int_value pv) n (hll_added ops))
      as [H0 | (item & Hin & Hidx & Heq)]; [by left |].
    right. exists item. split; [by apply Hadded | done].
Qed.

Lemma max_rank_same_strings (p : Z) (n : nat) (items1 items2 : list pyval) :
  (forall k, In k (map str items1) -> In k (map str items2)) ->
  max_rank mmh3_hash p n items1 <= max_rank mmh3_hash p n items2.
Proof.
  intros Hsub. apply max_rank_le. split; [apply max_rank_nonneg |].
  intros item Hin Hidx.
  assert (In (str item) (map str items2)) as Hk
    by (apply Hsub, in_map_iff; by exists item).
  apply in_map_iff in Hk as (item' & Hstr & Hin').
  assert (Hrank : hll_rank mmh3_hash p item = hll_rank mmh3_hash p item')
    by (unfold hll_rank; by rewrite Hstr).
  assert (Hidx' : hll_index mmh3_hash p item' = n)
    by (unfold hll_index in *; by rewrite Hstr).
  rewrite Hrank.
  apply (proj1 (max_rank_le p n items2 _) (Z.le_refl _)); done.
Qed.

Lemma hll_same_strings (pv : pyval) (h0 h1 h2 : t) (ops1 ops2 : list op) :
  __init__ pv = Ok h0 ->
  run mmh3_hash pow log h0 ops1 = Ok h1 ->
  run mmh3_hash pow log h0 ops2 = Ok h2 ->
  (forall k, In k (map str (hll_added ops1)) <-> In k (map str (hll_added ops2))) ->
  h1 = h2.
Proof.
  intros Hinit Hrun1 Hrun2 Hsame.
  destruct (hll_built_exact _ _ _ _ Hinit Hrun1) as (Hh1 & Hlen1 & Hregs1).
  destruct (hll_built_exact _ _ _ _ Hinit Hrun2) as (Hh2 & Hlen2 & Hregs2).
  assert (Hregs : registers h1 = registers h2).
  { apply list_eq. intros n.
    destruct (decide (n < length (registers h1))%nat) as [Hlt | Hge].
    - rewrite Hregs1, Hregs2 by lia. f_equal.
      apply Z.le_antisymm; apply max_rank_same_strings; intros k; apply Hsame.
    - rewrite !lookup_ge_None_2; try done; lia. }
  rewrite Hh1, Hh2. by rewrite Hregs.
Qed.

(** X10. The estimator depends only on the set of the string forms
    [str(item)] of the items given to [add]: two sequences of calls that
    return and add items with the same string forms, in any order and
    any number of times, leave the same estimator, hence the same
    [count()]. *)
Theorem estimator_depends_on_added_strings (pv : pyval) (h0 h1 h2 : t)
    (ops1 ops2 : list op) :
  __init__ pv = Ok h0 ->
  run mmh3_hash pow log h0 ops1 = Ok h1 ->
  run mmh3_hash pow log h0 ops2 = Ok h2 ->
  (forall k, In k (map str (hll_added ops1)) <-> In k (map str (hll_added ops2))) ->
  h1 = h2 /\ count pow log h1 = count pow log h2.
Proof.
  intros Hinit Hrun1 Hrun2 Hsame.
  by rewrite (hll_same_strings _ _ _ _ _ _ Hinit Hrun1 Hrun2 Hsame).
Qed.

Hypothesis mmh3_hash_range : forall data seed, 0 <= mmh3_hash data seed < 2 ^ 32.

Lemma hll_rank_range (p : Z) (item : pyval) :
  0 <= p <= 31 -> p + 1 <= hll_rank mmh3_hash p item <= 32.
Proof.
  intros Hp. unfold hll_rank, _rho.
  pose proof (mmh3_hash_range (str item) SEED) as Hx.
  set (w := Z.shiftr (mmh3_hash (str item) SEED) p).
  assert (Hw : 0 <= w < 2 ^ (32 - p)).
  { unfold w. rewrite Z.shiftr_div_pow2 by lia.
    assert (0 < 2 ^ p) by (apply Z.pow_pos_nonneg; lia).
    split; [apply Z.div_pos; lia |].
    apply Z.div_lt_upper_bound; [lia |].
    rewrite <- Z.pow_add_r by lia. replace (p + (32 - p)) with 32 by lia. lia. }
  destruct (Z.eqb_spec w 0); [lia |].
  unfold bit_length. destruct (Z.eqb_spec w 0); [lia |].
  rewrite Z.abs_eq by lia.
  assert (Z.log2 w < 32 - p) by (apply Z.log2_lt_pow2; lia).
  pose proof (Z.log2_nonneg w). lia.
Qed.

(** X11. With a hash of 32 bits and [0 <= p <= 31], every register of an
    estimator built by the constructor and taken through any calls that
    return is 0 or lies between [p + 1] and 32: no register ever holds a
    value from 1 to [p]. *)
Theorem registers_skip_low_ranks (pv : pyval) (h0 h : t) (ops : list op)
    (n : nat) (r : Z) :
  __init__ pv = Ok h0 ->
  run mmh3_hash pow log h0 ops = Ok h ->
  int_value pv <= 31 ->
  registers h !! n = Some r ->
  r = 0 \/ int_value pv + 1 <= r <= 32.
Proof.
  intros Hinit Hrun Hp Hr.
  destruct (hll_built_exact _ _ _ _ Hinit Hrun) as (_ & _ & Hregs).
  apply hll_init_inv in Hinit as (_ & Hp0 & _).
  rewrite Hregs in Hr by (by eapply lookup_lt_Some). injection Hr as <-.
  destruct (max_rank_attained (int_value pv) n (hll_added ops))
    as [H0 | (item & _ & _ & ->)]; [by left |].
  right. apply hll_rank_range. lia.
Qed.

End HyperLogLogState.

(** X12. For [0 < w < 2^32], [_rho(w)] is the number of leading zeros
    of [w] written on 32 bits, plus 1: it is the [r] between 1 and 32
    with [2^(32 - r) <= w < 2^(33 - r)]; in particular it does not
    increase when [w] grows. *)
Theorem rho_counts_leading_zeros (w r : Z) :
  0 < w < 2 ^ 32 ->
  (HyperLogLog._rho w = r <->
   1 <= r <= 32 /\ 2 ^ (32 - r) <= w < 2 ^ (33 - r)) /\
  (forall w', w <= w' -> w' < 2 ^ 32 -> HyperLogLog._rho w' <= HyperLogLog._rho w).
Proof.
  intros Hw.
  assert (Hrho : forall v, 0 < v -> HyperLogLog._rho v = 32 - Z.log2 v).
  { intros v Hv. unfold HyperLogLog._rho, bit_length.
    destruct (Z.eqb_spec v 0); [lia |]. rewrite Z.abs_eq by lia. lia. }
  split.
  - rewrite Hrho by lia.
    assert (Hlog : 0 <= Z.log2 w < 32).
    { split; [apply Z.log2_nonneg | apply Z.log2_lt_pow2; lia]. }
    destruct (Z.log2_spec w ltac:(lia)) as [Hlo Hhi]. split.
    + intros <-. split; [lia |].
      replace (32 - (32 - Z.log2 w)) with (Z.log2 w) by lia.
      replace (33 - (32 - Z.log2 w)) with (Z.succ (Z.log2 w)) by lia. done.
    + intros (Hr & Hlo' & Hhi').
      assert (Z.log2 w = 32 - r); [| lia].
      apply Z.log2_unique; [lia |].
      by replace (Z.succ (32 - r)) with (33 - r) by lia.
  - intros w' Hle Hw'. rewrite !Hrho by lia.
    pose proof (Z.log2_le_mono w w' Hle). lia.
Qed.

(** ** How many bits and registers the calls change *)

(** An assignment to one place changes the number of places that hold
    [x] by one at most. *)
Lemma count_insert (l : list Z) (j : nat) (v x : Z) :
  Py.count (<[j := v]> l) x <= Py.count l x + 1 /\
  Py.count l x <= Py.count (<[j := v]> l) x + 1.
Proof.
  unfold Py.count. revert j. induction l as [| a l IH]; intros j; [simpl; lia |].
  destruct j as [| j].
  - change (<[0%nat := v]> (a :: l)) with (v :: l). rewrite !filter_cons.
    destruct (decide (v = x)), (decide (a = x)); simpl; lia.
  - change (<[S j := v]> (a :: l)) with (a :: <[j := v]> l). rewrite !filter_cons.
    specialize (IH j). destruct (decide (a = x)); simpl; lia.
Qed.

Lemma count_range (l : list Z) (x : Z) : 0 <= Py.count l x <= Z.of_nat (length l).
Proof.
  unfold Py.count. pose proof (length_filter (fun y => y = x) l). lia.
Qed.

Lemma count_replicate_other (n : nat) (a x : Z) :
  a <> x -> Py.count (replicate n a) x = 0.
Proof.
  intros Hne. unfold Py.count.
  induction n as [| n IH]; [done |].
  change (replicate (S n) a) with (a :: replicate n a).
  by rewrite filter_cons_False.
Qed.

Lemma count_set_bits (ns : list nat) (bits : list Z) :
  Py.count (set_bits bits ns) 1 <= Py.count bits 1 + Z.of_nat (length ns).
Proof.
  revert bits. induction ns as [| n ns IH]; intros bits; [simpl; lia |].
  change (set_bits bits (n :: ns)) with (set_bits (<[n := 1]> bits) ns).
  specialize (IH (<[n := 1]> bits)).
  pose proof (count_insert bits n 1 1). simpl length. lia.
Qed.

Lemma length_omap_le {A B : Type} (f : A -> option B) (l : list A) :
  (length (omap f l) <= length l)%nat.
Proof.
  induction l as [| a l IH]; [done |].
  change (omap f (a :: l))
    with (match f a with Some b => b :: omap f l | None => omap f l end).
  destruct (f a); simpl; lia.
Qed.

Section BloomFilterFill.

Import BloomFilter.

Variable mmh3_hash : string -> Z -> Z.

(** X13. On a filter built by the constructor and taken through any
    calls, the number of bits that are 1 is at most [num_hashes] times
    the number of [add] calls made with a non-empty string, hence at most
    [num_hashes] times the number of calls. *)
Theorem filter_fill_is_bounded (M K : pyval) (bf0 bf : t) (ops : list op) :
  __init__ M K = Ok bf0 ->
  run mmh3_hash bf0 ops = Ok bf ->
  0 <= Py.count (bit_array bf) 1
    <= num_hashes bf * Z.of_nat (length (bloom_added ops)) /\
  (length (bloom_added ops) <= length ops)%nat.
Proof.
  intros Hinit Hrun. split; [| apply length_omap_le].
  split; [apply count_range |].
  rewrite (built_exact mmh3_hash _ _ _ _ _ Hinit Hrun). simpl.
  apply init_inv in Hinit as (_ & _ & _ & HK & _).
  pose proof (count_set_bits
                (flat_map (bloom_slots mmh3_hash (int_value M) (int_value K))
                          (bloom_added ops))
                (replicate (Z.to_nat (int_value M)) 0)) as Hle.
  rewrite count_replicate_other in Hle by done.
  rewrite (flat_map_constant_length (c := Z.to_nat (int_value K))) in Hle.
  - lia.
  - intros s _. unfold bloom_slots, range.
    by rewrite !length_map, length_seq.
Qed.

End BloomFilterFill.

Section HyperLogLogZeros.

Import HyperLogLog.

Variable mmh3_hash : string -> Z -> Z.
Variable pow : float -> float -> float.
Variable log : float -> float.

Lemma hll_run_zeros (ops : list op) (h0 h : t) :
  wf h0 ->
  run mmh3_hash pow log h0 ops = Ok h ->
  Py.count (registers h0) 0 - Z.of_nat (length (hll_added ops))
    <= Py.count (registers h) 0.
Proof.
  revert h0. induction ops as [| o ops IH]; intros h0 Hwf Hrun.
  - simpl in Hrun. injection Hrun as <-. simpl. lia.
  - destruct o as [item |]; simpl in Hrun.
    + destruct (hll_add_spec mmh3_hash h0 item Hwf) as (old & Hold & Hadd).
      rewrite Hadd, bind_Ok in Hrun.
      destruct (hll_add_grows mmh3_hash _ _ _ Hwf Hadd) as [Hwf1 _].
      specialize (IH _ Hwf1 Hrun). cbn [registers with_registers] in IH.
      match type of IH with
      | context [<[?j := ?v]> _] =>
          pose proof (count_insert (registers h0) j v 0) as Hins
      end.
      change (hll_added (Add item :: ops)) with (item :: hll_added ops).
      simpl length. lia.
    + destruct (count pow log h0); [| done]. rewrite bind_Ok in Hrun.
      by apply IH.
Qed.

(** X14. On an estimator built by the constructor and taken through any
    calls that return, the number [V] of registers that are 0, which
    [count] reads, is at least [m] minus the number of [add] calls, and at
    most [m]. *)
Theorem zero_registers_are_many (pv : pyval) (h0 h : t) (ops : list op) :
  __init__ pv = Ok h0 ->
  run mmh3_hash pow log h0 ops = Ok h ->
  m h - Z.of_nat (length (hll_added ops)) <= Py.count (registers h) 0 <= m h /\
  (length (hll_added ops) <= length ops)%nat.
Proof.
  intros Hinit Hrun. split; [| apply length_omap_le].
  pose proof (hll_init_wf _ _ Hinit) as Hwf0.
  destruct (hll_run_grows mmh3_hash pow log _ _ _ Hwf0 Hrun)
    as [(Hp & Hm2 & Hlen) (_ & Hm & _)].
  pose proof (hll_run_zeros _ _ _ Hwf0 Hrun) as Hz.
  apply hll_init_inv in Hinit as (_ & _ & _ & Hm0 & Hregs & _).
  rewrite Hregs, count_replicate_zero in Hz.
  pose proof (count_range (registers h) 0) as Hr.
  assert (0 < m h) by (rewrite Hm2; apply Z.pow_pos_nonneg; lia).
  rewrite Hlen in Hr. lia.
Qed.

End HyperLogLogZeros.

(** ** The two counting functions *)

Lemma py_eqb_canon (a b : pyval) : py_eqb a b = true <-> canon a = canon b.
Proof.
  destruct a as [| [] | z | s], b as [| [] | z' | s'];
    cbn [py_eqb canon int_value];
    rewrite ?Z.eqb_eq, ?String.eqb_eq; split; intros H; try done; congruence.
Qed.

Lemma py_eqb_refl (a : pyval) : py_eqb a a = true.
Proof. by apply py_eqb_canon. Qed.

Lemma existsb_py_eqb (x : pyval) (s : list pyval) :
  existsb (py_eqb x) s = true <-> In (canon x) (map canon s).
Proof.
  rewrite existsb_exists, in_map_iff. split.
  - intros (y & Hy & Heq). exists y. split; [| done].
    symmetry. by apply py_eqb_canon.
  - intros (y & Heq & Hy). exists y. split; [done |]. by apply py_eqb_canon.
Qed.

Lemma occurs_in_canon (x : pyval) (data : list pyval) :
  occurs_in x data <-> In (canon x) (map canon data).
Proof.
  unfold occurs_in. rewrite <- existsb_py_eqb, existsb_exists. done.
Qed.

(** Adding to a set whose elements are pairwise different keeps them so,
    and adds the value of the element. *)
Lemma set_add_spec (s : list pyval) (x : pyval) :
  List.NoDup (map canon s) ->
  List.NoDup (map canon (set_add s x)) /\
  forall c, In c (map canon (set_add s x)) <-> In c (map canon s) \/ c = canon x.
Proof.
  intros Hnd. unfold set_add.
  destruct (existsb (py_eqb x) s) eqn:E.
  - apply existsb_py_eqb in E. split; [done |].
    intros c. split; [by left | by intros [H | ->]].
  - assert (Hout : ~ In (canon x) (map canon s)).
    { intros Hin. apply existsb_py_eqb in Hin. congruence. }
    rewrite map_app. simpl. split.
    + apply List.NoDup_app; [done | |].
      * apply List.NoDup_cons; [by intros [] | apply List.NoDup_nil].
      * intros c Hc [<- | []]. done.
    + intros c. rewrite in_app_iff. simpl. split.
      * intros [H | [<- | []]]; [by left | by right].
      * intros [H | ->]; [by left | right; by left].
Qed.

Lemma fold_set_add_spec (data s : list pyval) :
  List.NoDup (map canon s) ->
  List.NoDup (map canon (fold_left set_add data s)) /\
  forall c, In c (map canon (fold_left set_add data s)) <->
            In c (map canon s) \/ In c (map canon data).
Proof.
  revert s. induction data as [| x data IH]; intros s Hnd; simpl.
  - split; [done |]. intros c. split; [by left | by intros [H | []]].
  - destruct (set_add_spec s x Hnd) as [Hnd1 Hin1].
    destruct (IH _ Hnd1) as [Hnd2 Hin2]. split; [done |].
    intros c. rewrite Hin2, Hin1. split.
    + intros [[H | ->] | H]; [by left | right; by left | right; by right].
    + intros [H | [<- | H]]; [left; by left | left; by right | by right].
Qed.

(** [set(data)] holds one element for each value of [data]. *)
Lemma set_of_spec (data : list pyval) :
  List.NoDup (map canon (set_of data)) /\
  forall c, In c (map canon (set_of data)) <-> In c (map canon data).
Proof.
  destruct (fold_set_add_spec data [] (List.NoDup_nil _)) as [Hnd Hin].
  split; [done |]. intros c. rewrite (Hin c). simpl. tauto.
Qed.

Lemma map_fmap {A B : Type} (f : A -> B) (l : list A) : map f l = f <$> l.
Proof. induction l as [| a l IH]; [done |]. simpl. by rewrite IH. Qed.

Lemma pairwise_different_canon (data : list pyval) :
  pairwise_different data <-> List.NoDup (map canon data).
Proof.
  rewrite <- NoDup_ListNoDup, map_fmap, NoDup_alt. unfold pairwise_different.
  split.
  - intros H i j c Hi Hj. rewrite list_lookup_fmap in Hi, Hj.
    destruct (data !! i) as [x |] eqn:Hx; [| done].
    destruct (data !! j) as [y |] eqn:Hy; [| done].
    simpl in Hi, Hj. apply (H i j x y Hx Hy).
    apply py_eqb_canon. congruence.
  - intros H i j x y Hx Hy Heq. apply py_eqb_canon in Heq.
    apply (H i j (canon x)); rewrite list_lookup_fmap.
    + by rewrite Hx.
    + rewrite Hy. simpl. by rewrite Heq.
Qed.

(** X15. [count_exact(data)] returns the difference of the two readings
    of the clock and a count between 0 and [len(data)], which is 0 only
    for no data, and which is [len(data)] exactly when no two places of
    the data hold equal values ([True] and 1 being equal, [None] and
    ["None"] not). *)
Theorem count_exact_is_number_of_values (start_time end_time : float)
    (data : list pyval) :
  snd (count_exact start_time end_time data) = (end_time - start_time)%float /\
  0 <= fst (count_exact start_time end_time data) <= Z.of_nat (length data) /\
  (fst (count_exact start_time end_time data) = 0 <-> data = []) /\
  (fst (count_exact start_time end_time data) = Z.of_nat (length data) <->
   pairwise_different data).
Proof.
  destruct (set_of_spec data) as [Hnd Hin]. simpl.
  assert (Hle : (length (set_of data) <= length data)%nat).
  { rewrite <- (length_map canon (set_of data)), <- (length_map canon data).
    apply List.NoDup_incl_length; [done |]. intros c. apply Hin. }
  split; [done |]. split; [lia |]. split; [split |].
  - intros H0. destruct data as [| x data]; [done |].
    assert (Hx : In (canon x) (map canon (set_of (x :: data))))
      by (apply Hin; by left).
    destruct (set_of (x :: data)); [done | simpl in H0; lia].
  - by intros ->.
  - rewrite pairwise_different_canon. split.
    + intros Hlen.
      apply (List.NoDup_incl_NoDup (l := map canon (set_of data))); [done | |].
      * rewrite !length_map. lia.
      * intros c. apply Hin.
    + intros Hnd'.
      assert ((length data <= length (set_of data))%nat); [| lia].
      rewrite <- (length_map canon (set_of data)), <- (length_map canon data).
      apply List.NoDup_incl_length; [done |]. intros c. apply Hin.
Qed.

(** X16. The count of [count_exact] depends only on the set of values of
    the data: two lists in which the same values occur, in any order and
    any number of times, have the same count. *)
Theorem count_exact_depends_on_values (s1 e1 s2 e2 : float)
    (data1 data2 : list pyval) :
  (forall x, occurs_in x data1 <-> occurs_in x data2) ->
  fst (count_exact s1 e1 data1) = fst (count_exact s2 e2 data2).
Proof.
  intros Hsame. simpl. f_equal.
  destruct (set_of_spec data1) as [Hnd1 Hin1].
  destruct (set_of_spec data2) as [Hnd2 Hin2].
  assert (Hincl : forall da db,
            (forall x, occurs_in x da -> occurs_in x db) ->
            forall c, In c (map canon da) -> In c (map canon db)).
  { intros da db Hab c Hc. apply in_map_iff in Hc as (y & <- & Hy).
    apply occurs_in_canon, Hab. exists y. split; [done | apply py_eqb_refl]. }
  rewrite <- (length_map canon (set_of data1)), <- (length_map canon (set_of data2)).
  apply Nat.le_antisymm; (apply List.NoDup_incl_length; [done |]); intros c Hc.
  - apply Hin2, (Hincl data1 data2); [intros x; apply Hsame | by apply Hin1].
  - apply Hin1, (Hincl data2 data1); [intros x; apply Hsame | by apply Hin2].
Qed.

Section CountHllFacts.

Import HyperLogLog.

Variable mmh3_hash : string -> Z -> Z.
Variable pow : float -> float -> float.
Variable log : float -> float.

Lemma add_all_run (data : list pyval) (hll : t) :
  add_all mmh3_hash hll data = run mmh3_hash pow log hll (map Add data).
Proof.
  revert hll. induction data as [| item data IH]; intros hll; [done |].
  simpl. destruct (add mmh3_hash hll item) as [hll' |]; [| done].
  rewrite !bind_Ok. apply IH.
Qed.

Lemma hll_added_adds (data : list pyval) : hll_added (map Add data) = data.
Proof.
  induction data as [| item data IH]; [done |].
  change (hll_added (map Add (item :: data)))
    with (item :: hll_added (map Add data)).
  by rewrite IH.
Qed.

(** X17. [count_hll(data, p)] depends only on the set of the string
    forms [str(item)] of the data: for two lists with the same string
    forms, in any order and any number of times, the two calls return
    the same estimate, or raise the same exception.  When the
    constructor returns, the loop over the data raises nothing, and the
    call returns what [count()] returns on the estimator that the loop
    leaves, with the difference of the two readings of the clock. *)
Theorem count_hll_depends_on_strings (start_time end_time : float)
    (data1 data2 : list pyval) (pv : pyval) :
  (forall k, In k (map str data1) <-> In k (map str data2)) ->
  count_hll mmh3_hash pow log start_time end_time data1 pv =
  count_hll mmh3_hash pow log start_time end_time data2 pv /\
  (forall h0, __init__ pv = Ok h0 ->
   exists h,
     add_all mmh3_hash h0 data1 = Ok h /\
     count_hll mmh3_hash pow log start_time end_time data1 pv =
       (c ← count pow log h; Ok (c, (end_time - start_time)%float))).
Proof.
  intros Hsame. unfold count_hll. split.
  - destruct (__init__ pv) as [h0 | e] eqn:Hinit; [| done].
    rewrite !bind_Ok, !add_all_run.
    pose proof (hll_init_wf _ _ Hinit) as Hwf.
    destruct (hll_run_adds_total mmh3_hash pow log data1 h0 Hwf) as [h1 H1].
    destruct (hll_run_adds_total mmh3_hash pow log data2 h0 Hwf) as [h2 H2].
    rewrite H1, H2, !bind_Ok.
    rewrite (hll_same_strings mmh3_hash pow log pv h0 h1 h2 _ _ Hinit H1 H2);
      [done |].
    by rewrite !hll_added_adds.
  - intros h0 Hinit. rewrite Hinit, bind_Ok.
    pose proof (hll_init_wf _ _ Hinit) as Hwf.
    destruct (hll_run_adds_total mmh3_hash pow log data1 h0 Hwf) as [h1 H1].
    exists h1. rewrite add_all_run, H1. by rewrite bind_Ok.
Qed.

End CountHllFacts.

(** * The further properties on the scenarios *)

Lemma filter_bits_are_added_positions_witness :
  BloomFilter.__init__ (PyInt 1000) (PyInt 3) = Ok scenario_filter0 /\
  BloomFilter.run Mmh3.hash scenario_filter0 scenario_adds = Ok scenario_filter /\
  BloomFilter.size scenario_filter = 1000 /\
  BloomFilter.num_hashes scenario_filter = 3 /\
  length (BloomFilter.bit_array scenario_filter) = 1000%nat.
Proof.
  split; [reflexivity |]. split; [vm_compute; reflexivity |].
  destruct (filter_bits_are_added_positions Mmh3.hash (PyInt 1000) (PyInt 3)
              scenario_filter0 scenario_filter scenario_adds)
    as (Hs & Hk & Hl & _); [reflexivity | vm_compute; reflexivity |].
  split; [exact Hs |]. split; [exact Hk | exact Hl].
Defined.

Lemma contains_answers_by_positions_witness :
  BloomFilter.__init__ (PyInt 1000) (PyInt 3) = Ok scenario_filter0 /\
  BloomFilter.run Mmh3.hash scenario_filter0 scenario_adds = Ok scenario_filter /\
  "guest" <> "" /\
  exists b,
    BloomFilter.contains Mmh3.hash scenario_filter (PyStr "guest") = Ok b.
Proof.
  split; [reflexivity |]. split; [vm_compute; reflexivity |].
  split; [discriminate |].
  destruct (contains_answers_by_positions Mmh3.hash (PyInt 1000) (PyInt 3)
              scenario_filter0 scenario_filter scenario_adds "guest")
    as (b & Hb & _); [reflexivity | vm_compute; reflexivity | discriminate |].
  exists b. exact Hb.
Defined.

Lemma new_filter_contains_nothing_witness :
  BloomFilter.__init__ (PyInt 1000) (PyInt 3) = Ok scenario_filter0 /\
  BloomFilter.contains Mmh3.hash scenario_filter0 (PyStr "password123") = Ok false.
Proof.
  split; [reflexivity |].
  apply (new_filter_contains_nothing Mmh3.hash (PyInt 1000) (PyInt 3)).
  reflexivity.
Defined.

Lemma filter_depends_on_added_set_witness :
  exists bf2,
    BloomFilter.__init__ (PyInt 1000) (PyInt 3) = Ok scenario_filter0 /\
    BloomFilter.run Mmh3.hash scenario_filter0 scenario_adds = Ok scenario_filter /\
    BloomFilter.run Mmh3.hash scenario_filter0
      [BloomFilter.Add (PyStr "qwerty123"); BloomFilter.Contains (PyStr "guest");
       BloomFilter.Add (PyStr "admin123"); BloomFilter.Add (PyStr "");
       BloomFilter.Add (PyStr "password123"); BloomFilter.Add (PyStr "qwerty123")]
      = Ok bf2 /\
    scenario_filter = bf2.
Proof.
  eexists. split; [reflexivity |]. split; [vm_compute; reflexivity |].
  split; [vm_compute; reflexivity |].
  apply (filter_depends_on_added_set Mmh3.hash (PyInt 1000) (PyInt 3)
           scenario_filter0 scenario_filter _ scenario_adds
           [BloomFilter.Add (PyStr "qwerty123");
            BloomFilter.Contains (PyStr "guest");
            BloomFilter.Add (PyStr "admin123"); BloomFilter.Add (PyStr "");
            BloomFilter.Add (PyStr "password123");
            BloomFilter.Add (PyStr "qwerty123")]);
    [reflexivity | vm_compute; reflexivity | vm_compute; reflexivity |].
  intros s Hs. simpl. intuition congruence.
Defined.

Lemma contains_stays_true_witness :
  exists bf2,
    BloomFilter.__init__ (PyInt 1000) (PyInt 3) = Ok scenario_filter0 /\
    BloomFilter.run Mmh3.hash scenario_filter0 scenario_adds = Ok scenario_filter /\
    BloomFilter.contains Mmh3.hash scenario_filter (PyStr "admin123") = Ok true /\
    BloomFilter.run Mmh3.hash scenario_filter [BloomFilter.Add (PyStr "guest")]
      = Ok bf2 /\
    BloomFilter.contains Mmh3.hash bf2 (PyStr "admin123") = Ok true.
Proof.
  eexists. split; [reflexivity |]. split; [vm_compute; reflexivity |].
  split; [vm_compute; reflexivity |]. split; [vm_compute; reflexivity |].
  apply (contains_stays_true Mmh3.hash (PyInt 1000) (PyInt 3) scenario_filter0
           scenario_filter _ scenario_adds [BloomFilter.Add (PyStr "guest")]);
    [reflexivity | vm_compute; reflexivity ..].
Defined.

Lemma added_password_is_reported_used_witness :
  BloomFilter.__init__ (PyInt 1000) (PyInt 3) = Ok scenario_filter0 /\
  BloomFilter.run Mmh3.hash scenario_filter0 scenario_adds = Ok scenario_filter /\
  In (BloomFilter.Add (PyStr "password123")) scenario_adds /\
  In (PyStr "password123") scenario_items /\
  exists d,
    check_password_uniqueness Mmh3.hash scenario_filter scenario_items = Ok d /\
    dict_get d "password123" = Some STATUS_USED.
Proof.
  split; [reflexivity |]. split; [vm_compute; reflexivity |].
  split; [by left |]. split; [by left |].
  apply (added_password_is_reported_used Mmh3.hash (PyInt 1000) (PyInt 3)
           scenario_filter0 scenario_filter scenario_adds scenario_items);
    [reflexivity | vm_compute; reflexivity | by left | discriminate | by left |].
  intros item Hin Hstr. simpl in Hin.
  repeat (destruct Hin as [<- | Hin]; [try reflexivity; discriminate Hstr |]).
  destruct Hin.
Defined.

Lemma new_filter_reports_nothing_used_witness :
  BloomFilter.__init__ (PyInt 1000) (PyInt 3) = Ok scenario_filter0 /\
  exists d,
    check_password_uniqueness Mmh3.hash scenario_filter0 scenario_items = Ok d /\
    forall k st, dict_get d k = Some st ->
                 st = STATUS_INVALID \/ st = STATUS_UNIQUE.
Proof.
  split; [reflexivity |].
  apply (new_filter_reports_nothing_used Mmh3.hash (PyInt 1000) (PyInt 3)).
  reflexivity.
Defined.

Lemma classifier_keys_in_first_occurrence_order_witness :
  BloomFilter.__init__ (PyInt 1000) (PyInt 3) = Ok scenario_filter0 /\
  BloomFilter.run Mmh3.hash scenario_filter0 scenario_adds = Ok scenario_filter /\
  exists d,
    check_password_uniqueness Mmh3.hash scenario_filter scenario_items_repeated
      = Ok d /\
    dict_keys d = ["password123"; "newpassword"; ""; "None"].
Proof.
  split; [reflexivity |]. split; [vm_compute; reflexivity |].
  destruct (classifier_keys_in_first_occurrence_order Mmh3.hash (PyInt 1000)
              (PyInt 3) scenario_filter0 scenario_filter scenario_adds
              scenario_items_repeated)
    as (d & Hd & Hkeys); [reflexivity | vm_compute; reflexivity |].
  exists d. split; [exact Hd | exact Hkeys].
Defined.

Lemma registers_are_highest_ranks_witness :
  exists h,
    HyperLogLog.__init__ (PyInt 4) = Ok scenario_estimator4 /\
    HyperLogLog.run Mmh3.hash Libm.pow Libm.log scenario_estimator4
      [HyperLogLog.Add (PyStr "192.168.0.1"); HyperLogLog.Count;
       HyperLogLog.Add PyNone] = Ok h /\
    length (HyperLogLog.registers h) = 16%nat.
Proof.
  eexists. split; [vm_compute; reflexivity |].
  split; [vm_compute; reflexivity |].
  match goal with
  | |- length (HyperLogLog.registers ?h) = _ =>
      destruct (registers_are_highest_ranks Mmh3.hash Libm.pow Libm.log
                  (PyInt 4) scenario_estimator4 h
                  [HyperLogLog.Add (PyStr "192.168.0.1"); HyperLogLog.Count;
                   HyperLogLog.Add PyNone])
        as (_ & Hlen & _); [vm_compute; reflexivity .. |]
  end.
  exact Hlen.
Defined.

Lemma estimator_depends_on_added_strings_witness :
  exists h1 h2,
    HyperLogLog.__init__ (PyInt 4) = Ok scenario_estimator4 /\
    HyperLogLog.run Mmh3.hash Libm.pow Libm.log scenario_estimator4
      [HyperLogLog.Add (PyInt 1); HyperLogLog.Add (PyStr "a")] = Ok h1 /\
    HyperLogLog.run Mmh3.hash Libm.pow Libm.log scenario_estimator4
      [HyperLogLog.Add (PyStr "a"); HyperLogLog.Count;
       HyperLogLog.Add (PyStr "1"); HyperLogLog.Add (PyStr "a")] = Ok h2 /\
    h1 = h2.
Proof.
  do 2 eexists. split; [vm_compute; reflexivity |].
  split; [vm_compute; reflexivity |]. split; [vm_compute; reflexivity |].
  match goal with
  | |- ?h1 = ?h2 =>
      destruct (estimator_depends_on_added_strings Mmh3.hash Libm.pow Libm.log
                  (PyInt 4) scenario_estimator4 h1 h2
                  [HyperLogLog.Add (PyInt 1); HyperLogLog.Add (PyStr "a")]
                  [HyperLogLog.Add (PyStr "a"); HyperLogLog.Count;
                   HyperLogLog.Add (PyStr "1"); HyperLogLog.Add (PyStr "a")])
        as [Heq _];
        [vm_compute; reflexivity | vm_compute; reflexivity
         | vm_compute; reflexivity | | exact Heq]
  end.
  intros k. vm_compute. tauto.
Defined.

Lemma registers_skip_low_ranks_witness :
  exists h,
    (forall data seed, 0 <= Mmh3.hash data seed < 2 ^ 32) /\
    HyperLogLog.__init__ (PyInt 4) = Ok scenario_estimator4 /\
    HyperLogLog.run Mmh3.hash Libm.pow Libm.log scenario_estimator4
      [HyperLogLog.Add PyNone] = Ok h /\
    HyperLogLog.registers h !! 10%nat = Some 6 /\
    (6 = 0 \/ 4 + 1 <= 6 <= 32).
Proof.
  eexists. split; [exact mmh3_reference_range |].
  split; [vm_compute; reflexivity |]. split; [vm_compute; reflexivity |].
  split; [reflexivity |].
  eapply (registers_skip_low_ranks Mmh3.hash Libm.pow Libm.log
           mmh3_reference_range (PyInt 4) scenario_estimator4 _
           [HyperLogLog.Add PyNone] 10%nat 6);
    [vm_compute; reflexivity | vm_compute; reflexivity | simpl; lia
     | reflexivity].
Defined.

Lemma rho_counts_leading_zeros_witness :
  0 < 27547034 < 2 ^ 32 /\
  (HyperLogLog._rho 27547034 = 8 <->
   1 <= 8 <= 32 /\ 2 ^ (32 - 8) <= 27547034 < 2 ^ (33 - 8)).
Proof.
  split; [lia |].
  destruct (rho_counts_leading_zeros 27547034 8) as [H _]; [lia | exact H].
Defined.

Lemma filter_fill_is_bounded_witness :
  BloomFilter.__init__ (PyInt 1000) (PyInt 3) = Ok scenario_filter0 /\
  BloomFilter.run Mmh3.hash scenario_filter0 scenario_adds = Ok scenario_filter /\
  0 <= Py.count (BloomFilter.bit_array scenario_filter) 1 <= 3 * 3.
Proof.
  split; [reflexivity |]. split; [vm_compute; reflexivity |].
  destruct (filter_fill_is_bounded Mmh3.hash (PyInt 1000) (PyInt 3)
              scenario_filter0 scenario_filter scenario_adds) as [H _];
    [reflexivity | vm_compute; reflexivity | exact H].
Defined.

Lemma zero_registers_are_many_witness :
  HyperLogLog.__init__ (PyInt 14) = Ok scenario_estimator0 /\
  HyperLogLog.run Mmh3.hash Libm.pow Libm.log scenario_estimator0 scenario_calls
    = Ok scenario_estimator /\
  HyperLogLog.m scenario_estimator
    - Z.of_nat (length (hll_added scenario_calls))
    <= Py.count (HyperLogLog.registers scenario_estimator) 0
    <= HyperLogLog.m scenario_estimator.
Proof.
  split; [vm_compute; reflexivity |]. split; [vm_compute; reflexivity |].
  destruct (zero_registers_are_many Mmh3.hash Libm.pow Libm.log (PyInt 14)
              scenario_estimator0 scenario_estimator scenario_calls) as [H _];
    [vm_compute; reflexivity | vm_compute; reflexivity | exact H].
Defined.

Lemma count_exact_depends_on_values_witness :
  (forall x, occurs_in x [PyBool true; PyStr "a"; PyNone] <->
             occurs_in x [PyNone; PyInt 1; PyStr "a"; PyInt 1]) /\
  fst (count_exact 0 1 [PyBool true; PyStr "a"; PyNone]) =
  fst (count_exact 2 5 [PyNone; PyInt 1; PyStr "a"; PyInt 1]).
Proof.
  assert (H : forall x, occurs_in x [PyBool true; PyStr "a"; PyNone] <->
                        occurs_in x [PyNone; PyInt 1; PyStr "a"; PyInt 1]).
  { intros x. unfold occurs_in. rewrite <- !existsb_exists.
    destruct x as [| [] | z | s]; cbn [existsb py_eqb int_value].
    - tauto.
    - simpl. tauto.
    - simpl. tauto.
    - destruct (z =? 1); simpl; tauto.
    - destruct (String.eqb s "a"); simpl; tauto. }
  split; [exact H |].
  apply (count_exact_depends_on_values 0 1 2 5 _ _ H).
Defined.

Lemma count_hll_depends_on_strings_witness :
  (forall k, In k (map str [PyInt 1; PyStr "a"]) <->
             In k (map str [PyStr "a"; PyStr "1"; PyStr "a"])) /\
  count_hll Mmh3.hash Libm.pow Libm.log 0 1 [PyInt 1; PyStr "a"] (PyInt 4) =
  count_hll Mmh3.hash Libm.pow Libm.log 0 1 [PyStr "a"; PyStr "1"; PyStr "a"]
    (PyInt 4).
Proof.
  assert (H : forall k, In k (map str [PyInt 1; PyStr "a"]) <->
                        In k (map str [PyStr "a"; PyStr "1"; PyStr "a"])).
  { intros k. vm_compute. tauto. }
  split; [exact H |].
  destruct (count_hll_depends_on_strings Mmh3.hash Libm.pow Libm.log 0 1
              [PyInt 1; PyStr "a"] [PyStr "a"; PyStr "1"; PyStr "a"] (PyInt 4) H)
    as [Heq _].
  exact Heq.
Defined.

(** What the two counting functions return on a list with [True] next to
    1 and [None] next to ["None"]: three values, and four strings for an
    estimator of precision 4. *)
Example counts_on_mixed_values :
  count_exact 0 1 [PyBool true; PyInt 1; PyNone; PyStr "None"; PyStr "1"]
    = (4, 1%float) /\
  map str [PyBool true; PyInt 1; PyNone; PyStr "None"; PyStr "1"]
    = ["True"; "1"; "None"; "None"; "1"].
Proof. split; vm_compute; reflexivity. Qed.
